(** * Query builder options: Logs and Table builders

    A shallow embedding of the two query builder views
    ([LogsQueryBuilder.tsx] and [TableQueryBuilder.tsx]) together with the
    hooks they call, and the properties of the option model they commit. *)

From Stdlib Require Import ZArith List String Bool Lia Permutation.
Import ListNotations.
Open Scope string_scope.
Open Scope list_scope.
Open Scope Z_scope.

(** ** JavaScript idioms used by the views *)

(** [x || d] on an optional array or object: arrays are always truthy, so
    only [undefined] falls through to the default. *)
Definition orElse {A : Type} (x : option A) (d : A) : A :=
  match x with
  | Some v => v
  | None => d
  end.

(** [x || 0] on an optional array length: [undefined] and [0] are the falsy
    ones, a length is never [NaN]. *)
Definition orZero (x : option Z) : Z :=
  match x with
  | Some v => if v =? 0 then 0 else v
  | None => 0
  end.

(** A JavaScript number as far as the views look at one: they test a limit
    for truthiness and pass it on, so a number is an integer or [NaN], the
    one falsy number besides [0]. *)
Inductive number : Type :=
| Num (z : Z)
| NaN.

(** [x || 0] on an optional number: [undefined], [NaN] and [0] are falsy. *)
Definition numberOrZero (x : option number) : number :=
  match x with
  | Some (Num z) => if z =? 0 then Num 0 else Num z
  | Some NaN => Num 0
  | None => Num 0
  end.

(** [x || ''] on an optional string. *)
Definition orEmptyString (x : option string) : string :=
  match x with
  | Some v => if String.eqb v "" then "" else v
  | None => ""
  end.

(** [x || false] on an optional boolean. *)
Definition orFalse (x : option bool) : bool :=
  match x with
  | Some v => v
  | None => false
  end.

(** [if (x) { arr.push(x) }] on an optional object, as the tail to append. *)
Definition pushIfDefined {A : Type} (x : option A) : list A :=
  match x with
  | Some v => [v]
  | None => []
  end.

(** ** Types of [types/queryBuilder] *)

Module QB.

(** Modelled from the spec: the [ColumnHint] enum is declared in
    [types/queryBuilder]; the views name three of its members, and the spec
    speaks of a semantic hint tag "such as Time/LogLevel/LogMessage", so the
    remaining members are kept as an open tag. *)
Inductive ColumnHint : Type :=
| Time
| LogLevel
| LogMessage
| OtherHint (tag : string).

Definition ColumnHint_eq_dec (a b : ColumnHint) : {a = b} + {a <> b}.
Proof. decide equality. apply string_dec. Defined.

Definition hint_eqb (a b : ColumnHint) : bool :=
  if ColumnHint_eq_dec a b then true else false.

(** Modelled from the spec: a [SelectedColumn] is a source column name, an
    optional display alias and an optional semantic hint. *)
Record SelectedColumn : Type := mkSelectedColumn {
  name : string;
  alias : option string;
  hint : option ColumnHint
}.

(** [c.hint === h] on the optional hint of a column; [c.hint !== h] is its
    negation, true of a column without hint. *)
Definition hintIs (h : ColumnHint) (c : SelectedColumn) : bool :=
  match hint c with
  | Some h' => hint_eqb h' h
  | None => false
  end.

(** Modelled from the spec: function name, target column, alias. *)
Record AggregateColumn : Type := mkAggregateColumn {
  aggregateType : string;
  column : string;
  aggAlias : option string
}.

Inductive OrderByDirection : Type := ASC | DESC.

(** Modelled from the spec: a column or aggregate reference and a direction. *)
Record OrderBy : Type := mkOrderBy {
  orderName : string;
  dir : OrderByDirection
}.

Inductive FilterCondition : Type := AND | OR.

(** Modelled from the spec: column reference, operator, operands and the
    boolean combinator with the previous filter. *)
Record Filter : Type := mkFilter {
  key : string;
  operator : string;
  operands : list string;
  condition : FilterCondition
}.

Module BuilderMode.
Inductive t : Type := List | Aggregate.
End BuilderMode.

Record QueryBuilderMeta : Type := mkMeta {
  otelEnabled : option bool;
  otelVersion : option string
}.

(** The option model.  Every field the views read through [?.] or [||] is
    optional. *)
Record QueryBuilderOptions : Type := mkOptions {
  database : string;
  table : string;
  mode : option BuilderMode.t;
  columns : option (list SelectedColumn);
  aggregates : option (list AggregateColumn);
  groupBy : option (list string);
  filters : option (list Filter);
  orderBy : option (list OrderBy);
  limit : option number;
  meta : option QueryBuilderMeta
}.

(** [builderOptions.meta?.otelEnabled] and [builderOptions.meta?.otelVersion]. *)
Definition metaOtelEnabled (o : QueryBuilderOptions) : option bool :=
  match meta o with
  | Some m => otelEnabled m
  | None => None
  end.

Definition metaOtelVersion (o : QueryBuilderOptions) : option string :=
  match meta o with
  | Some m => otelVersion m
  | None => None
  end.

(** Modelled from the spec: [getColumnByHint] lives in [data/sqlGenerator];
    it is the column of the model that carries the given hint, [undefined]
    when the hint is absent. *)
Definition getColumnByHint (o : QueryBuilderOptions) (h : ColumnHint)
  : option SelectedColumn :=
  find (hintIs h) (orElse (columns o) []).

(** The hints carried by a column sequence, in order; columns without a hint
    carry none. *)
Fixpoint hintsOf (cs : list SelectedColumn) : list ColumnHint :=
  match cs with
  | [] => []
  | c :: cs' =>
      match hint c with
      | Some h => h :: hintsOf cs'
      | None => hintsOf cs'
      end
  end.

(** No two entries of the sequence carry the same semantic hint. *)
Definition hintsUnique (cs : list SelectedColumn) : Prop := NoDup (hintsOf cs).

(** At most one entry of the sequence carries the hint [h]. *)
Definition atMostOne (h : ColumnHint) (cs : list SelectedColumn) : Prop :=
  (List.length (filter (hintIs h) cs) <= 1)%nat.

End QB.

Import QB.

(** ** The owner of the option model ([hooks/useBuilderOptionsState]) *)

(** [Partial<QueryBuilderOptions>], the payload of [setOptions]: the fields
    the views write; [None] is a key the payload does not carry. *)
Module Partial.
Record t : Type := mk {
  mode : option BuilderMode.t;
  columns : option (list SelectedColumn);
  aggregates : option (list AggregateColumn);
  groupBy : option (list string);
  filters : option (list Filter);
  orderBy : option (list OrderBy);
  limit : option number
}.
End Partial.

Inductive BuilderOptionsReducerAction : Type :=
| setOptions (payload : Partial.t)
| setOtelEnabled (enabled : bool)
| setOtelVersion (version : string)
| setColumnByHint (col : SelectedColumn).

Module OptionsState.

(** A key carried by the payload replaces the model's value, an absent key
    leaves it. *)
Definition overlay {A : Type} (next prev : option A) : option A :=
  match next with
  | Some v => Some v
  | None => prev
  end.

(** Modelled from the spec: the reducer is not part of the views.  A commit
    is "commit next Option Model": the payload's fields supersede the
    snapshot's, the fields it does not carry stay. *)
Definition mergeOptions (state : QueryBuilderOptions) (p : Partial.t)
  : QueryBuilderOptions :=
  {| database := database state;
     table := table state;
     mode := overlay (Partial.mode p) (mode state);
     columns := overlay (Partial.columns p) (columns state);
     aggregates := overlay (Partial.aggregates p) (aggregates state);
     groupBy := overlay (Partial.groupBy p) (groupBy state);
     filters := overlay (Partial.filters p) (filters state);
     orderBy := overlay (Partial.orderBy p) (orderBy state);
     limit := overlay (Partial.limit p) (limit state);
     meta := meta state |}.

(** Modelled from the spec: hint collisions are "prevented structurally by
    always removing any existing column carrying a hint before assigning
    that hint to a new column". *)
Definition replaceByHint (col : SelectedColumn) (cs : list SelectedColumn)
  : list SelectedColumn :=
  match hint col with
  | Some h => filter (fun c => negb (hintIs h c)) cs ++ [col]
  | None => cs ++ [col]
  end.

Definition withColumns (state : QueryBuilderOptions)
  (cs : list SelectedColumn) : QueryBuilderOptions :=
  {| database := database state;
     table := table state;
     mode := mode state;
     columns := Some cs;
     aggregates := aggregates state;
     groupBy := groupBy state;
     filters := filters state;
     orderBy := orderBy state;
     limit := limit state;
     meta := meta state |}.

Definition withMeta (state : QueryBuilderOptions) (m : QueryBuilderMeta)
  : QueryBuilderOptions :=
  {| database := database state;
     table := table state;
     mode := mode state;
     columns := columns state;
     aggregates := aggregates state;
     groupBy := groupBy state;
     filters := filters state;
     orderBy := orderBy state;
     limit := limit state;
     meta := Some m |}.

(** Modelled from the spec: the reducer behind [builderOptionsDispatch]. *)
Definition reducer (state : QueryBuilderOptions)
  (action : BuilderOptionsReducerAction) : QueryBuilderOptions :=
  match action with
  | setOptions p => mergeOptions state p
  | setOtelEnabled e =>
      withMeta state {| otelEnabled := Some e;
                        otelVersion := metaOtelVersion state |}
  | setOtelVersion v =>
      withMeta state {| otelEnabled := metaOtelEnabled state;
                        otelVersion := Some v |}
  | setColumnByHint col =>
      withColumns state (replaceByHint col (orElse (columns state) []))
  end.

(** Dispatches are processed to completion, one after the other. *)
Definition dispatchAll (state : QueryBuilderOptions)
  (actions : list BuilderOptionsReducerAction) : QueryBuilderOptions :=
  fold_left reducer actions state.

End OptionsState.

(** What a view needs of the owner after a dispatch: the model it is next
    rendered with holds every field the payload carried. *)
Module Commit.

Definition holds {A : Type} (written stored : option A) : Prop :=
  match written with
  | Some v => stored = Some v
  | None => True
  end.

Definition carries (o : QueryBuilderOptions) (p : Partial.t) : Prop :=
  holds (Partial.mode p) (mode o)
  /\ holds (Partial.columns p) (columns o)
  /\ holds (Partial.aggregates p) (aggregates o)
  /\ holds (Partial.groupBy p) (groupBy o)
  /\ holds (Partial.filters p) (filters o)
  /\ holds (Partial.orderBy p) (orderBy o)
  /\ holds (Partial.limit p) (limit o).

End Commit.

(** ** The change reconciler ([hooks/useBuilderOptionChanges]) *)

Module Reconciler.

(** The state shape [T] of a view with its field names [keyof T]: the type
    of each field, reading a field and the object spread
    [{ ...state, [key]: value }]. *)
Class StateShape (T : Type) : Type := {
  Key : Type;
  Val : Key -> Type;
  key_eq_dec : forall a b : Key, {a = b} + {a <> b};
  getField : forall k : Key, T -> Val k;
  setField : forall k : Key, Val k -> T -> T;
  get_set_same : forall k v s, getField k (setField k v s) = v;
  get_set_other : forall k k' v s,
      k <> k' -> getField k' (setField k v s) = getField k' s
}.

Section WithShape.

Context {T : Type} {shape : StateShape T}.

(** A named partial update: a field name and the new value of that field. *)
Definition Update : Type := {k : Key & Val k}.

Definition update (k : Key) (v : Val k) : Update := existT _ k v.

Definition applyUpdate (s : T) (u : Update) : T :=
  setField (projT1 u) (projT2 u) s.

(** Modelled from the spec: the hook is not part of the views.  It keeps "a
    working copy of current state (supplied by the caller each render) and a
    queue of named partial updates". *)
Record State : Type := mkState {
  current : T;
  queue : list Update
}.

Inductive Event : Type :=
| Render (prevState : T)
| Setter (u : Update)
| Settle.

(** Modelled from the spec: the merge "takes the last value written per
    field", every other field keeps the value of the snapshot the updates
    were queued against. *)
Definition mergeQueue (snapshot : T) (q : list Update) : T :=
  fold_left applyUpdate q snapshot.

Section WithOnChange.

Context {C : Type}.
Variable onChange : T -> C.

(** Modelled from the spec: setters queue; when the system settles the
    queued updates are merged and the mapping function is invoked once on
    the merged state; an empty queue commits nothing. *)
Definition step (r : State) (e : Event) : State * list C :=
  match e with
  | Render s => ({| current := s; queue := queue r |}, [])
  | Setter u => ({| current := current r; queue := queue r ++ [u] |}, [])
  | Settle =>
      match queue r with
      | [] => (r, [])
      | _ :: _ =>
          ({| current := current r; queue := [] |},
           [onChange (mergeQueue (current r) (queue r))])
      end
  end.

Fixpoint run (r : State) (es : list Event) : State * list C :=
  match es with
  | [] => (r, [])
  | e :: es' =>
      let (r1, out1) := step r e in
      let (r2, out2) := run r1 es' in
      (r2, out1 ++ out2)
  end.

(** One batch: the caller renders with a snapshot, setters fire, the system
    settles. *)
Definition batch (snapshot : T) (q : list Update) : list Event :=
  Render snapshot :: map Setter q ++ [Settle].

Definition mount (s : T) : State := {| current := s; queue := [] |}.

End WithOnChange.

(** The value an update writes to field [k], when it is an update of [k]. *)
Definition castTo (k : Key) (u : Update) : option (Val k) :=
  match key_eq_dec (projT1 u) k with
  | left e => Some (eq_rect (projT1 u) Val (projT2 u) k e)
  | right _ => None
  end.

(** The last value written to field [k] in a queue, if any. *)
Fixpoint lastWrite (k : Key) (q : list Update) : option (Val k) :=
  match q with
  | [] => None
  | u :: q' =>
      match lastWrite k q' with
      | Some v => Some v
      | None => castTo k u
      end
  end.

(** The field is not mentioned in any queued update. *)
Definition unmentioned (k : Key) (q : list Update) : Prop :=
  Forall (fun u => projT1 u <> k) q.

(** The value of field [k] after a batch: the last value written to it
    within the batch, the value of the snapshot when no update mentions it. *)
Definition written (k : Key) (snapshot : T) (q : list Update) : Val k :=
  match lastWrite k q with
  | Some v => v
  | None => getField k snapshot
  end.

(** A session of the hook: batch after batch, each with the snapshot of its
    own render and the setter calls fired before the system settles. *)
Definition session (batches : list (T * list Update)) : list Event :=
  List.concat (map (fun b => batch (fst b) (snd b)) batches).

(** The batch has at least one setter call. *)
Definition hasUpdate (b : T * list Update) : bool :=
  match snd b with
  | [] => false
  | _ :: _ => true
  end.

End WithShape.

End Reconciler.

(** ** The Table view ([TableQueryBuilder]) *)

Module Table.

Record TableQueryBuilderState : Type := mkState {
  selectedColumns : list SelectedColumn;
  aggregates : list AggregateColumn;
  groupBy : list string;
  orderBy : list OrderBy;
  limit : number;
  filters : list Filter
}.

(** The initial value of [isAggregateMode]:
    [(builderOptions.aggregates?.length || 0) > 0]. *)
Definition initialAggregateMode (builderOptions : QueryBuilderOptions) : bool :=
  orZero (option_map (fun a => Z.of_nat (List.length a)) (QB.aggregates builderOptions))
  >? 0.

Definition builderState (builderOptions : QueryBuilderOptions)
  : TableQueryBuilderState :=
  {| selectedColumns := orElse (QB.columns builderOptions) [];
     aggregates := orElse (QB.aggregates builderOptions) [];
     groupBy := orElse (QB.groupBy builderOptions) [];
     orderBy := orElse (QB.orderBy builderOptions) [];
     limit := numberOrZero (QB.limit builderOptions);
     filters := orElse (QB.filters builderOptions) [] |}.

(** The payload the mapping function hands to [setOptions]. *)
Definition nextOptions (isAggregateMode : bool) (next : TableQueryBuilderState)
  : Partial.t :=
  {| Partial.mode :=
       Some (if isAggregateMode then BuilderMode.Aggregate else BuilderMode.List);
     Partial.columns := Some (selectedColumns next);
     Partial.aggregates := Some (if isAggregateMode then aggregates next else []);
     Partial.groupBy := Some (if isAggregateMode then groupBy next else []);
     Partial.filters := Some (filters next);
     Partial.orderBy := Some (orderBy next);
     Partial.limit := Some (limit next) |}.

(** The callback given to [useBuilderOptionChanges]. *)
Definition onChange (isAggregateMode : bool) (next : TableQueryBuilderState)
  : BuilderOptionsReducerAction :=
  setOptions (nextOptions isAggregateMode next).

(** [keyof TableQueryBuilderState]. *)
Inductive Key : Type :=
| KselectedColumns | Kaggregates | KgroupBy | KorderBy | Klimit | Kfilters.

Definition Val (k : Key) : Type :=
  match k with
  | KselectedColumns => list SelectedColumn
  | Kaggregates => list AggregateColumn
  | KgroupBy => list string
  | KorderBy => list OrderBy
  | Klimit => number
  | Kfilters => list Filter
  end.

Definition Key_eq_dec (a b : Key) : {a = b} + {a <> b}.
Proof. decide equality. Defined.

Definition getField (k : Key) (s : TableQueryBuilderState) : Val k :=
  match k with
  | KselectedColumns => selectedColumns s
  | Kaggregates => aggregates s
  | KgroupBy => groupBy s
  | KorderBy => orderBy s
  | Klimit => limit s
  | Kfilters => filters s
  end.

(** [{ ...state, [key]: value }]. *)
Definition setField (k : Key) : Val k -> TableQueryBuilderState -> TableQueryBuilderState :=
  match k with
  | KselectedColumns => fun v s =>
      mkState v (aggregates s) (groupBy s) (orderBy s) (limit s) (filters s)
  | Kaggregates => fun v s =>
      mkState (selectedColumns s) v (groupBy s) (orderBy s) (limit s) (filters s)
  | KgroupBy => fun v s =>
      mkState (selectedColumns s) (aggregates s) v (orderBy s) (limit s) (filters s)
  | KorderBy => fun v s =>
      mkState (selectedColumns s) (aggregates s) (groupBy s) v (limit s) (filters s)
  | Klimit => fun v s =>
      mkState (selectedColumns s) (aggregates s) (groupBy s) (orderBy s) v (filters s)
  | Kfilters => fun v s =>
      mkState (selectedColumns s) (aggregates s) (groupBy s) (orderBy s) (limit s) v
  end.

#[export] Instance shape : Reconciler.StateShape TableQueryBuilderState.
Proof.
  refine {| Reconciler.Key := Key;
            Reconciler.Val := Val;
            Reconciler.key_eq_dec := Key_eq_dec;
            Reconciler.getField := getField;
            Reconciler.setField := setField |}.
  - intros k v s; destruct k; reflexivity.
  - intros k k' v s Hne; destruct k, k'; try reflexivity; congruence.
Defined.

(** A named partial update of the Table view's state. *)
Abbreviation Update := (@Reconciler.Update TableQueryBuilderState shape).

(** [onOptionChange(key)], the setter of one field: the update it queues. *)
Definition onOptionChange (k : Key) (v : Val k) : Update := existT _ k v.

(** The component: the [useState] cell and the option model it is rendered
    with. *)
Record Component : Type := mkComponent {
  isAggregateMode : bool;
  builderOptions : QueryBuilderOptions
}.

Definition mount (o : QueryBuilderOptions) : Component :=
  {| isAggregateMode := initialAggregateMode o; builderOptions := o |}.

Inductive Event : Type :=
| ModeSwitch (value : bool)
| Edit (q : list Update).

(** The actions dispatched by one batch of setter calls. *)
Definition commits (c : Component) (q : list Update)
  : list BuilderOptionsReducerAction :=
  snd (Reconciler.run (onChange (isAggregateMode c))
         (Reconciler.mount (builderState (builderOptions c)))
         (Reconciler.batch (builderState (builderOptions c)) q)).

(** [ModeSwitch] calls [setAggregateMode] and nothing else; an editor change
    goes through [onOptionChange] to the reducer. *)
Definition step (c : Component) (e : Event) : Component :=
  match e with
  | ModeSwitch value =>
      {| isAggregateMode := value; builderOptions := builderOptions c |}
  | Edit q =>
      {| isAggregateMode := isAggregateMode c;
         builderOptions :=
           OptionsState.dispatchAll (builderOptions c) (commits c q) |}
  end.

Definition steps (c : Component) (es : list Event) : Component :=
  fold_left step es c.

(** The fields whose setter is wired to an editor the view renders, top to
    bottom: the aggregate and group-by editors are rendered in Aggregate
    mode only. *)
Definition renderedSetters (isAggregateMode : bool) : list Key :=
  [KselectedColumns]
  ++ (if isAggregateMode then [Kaggregates; KgroupBy] else [])
  ++ [KorderBy; Klimit; Kfilters].

(** The key of the payload a field of the editable state is committed under. *)
Definition payloadField (k : Key) (p : Partial.t) : option (Val k) :=
  match k with
  | KselectedColumns => Partial.columns p
  | Kaggregates => Partial.aggregates p
  | KgroupBy => Partial.groupBy p
  | KorderBy => Partial.orderBy p
  | Klimit => Partial.limit p
  | Kfilters => Partial.filters p
  end.

(** The editable state with the two fields of Aggregate mode emptied. *)
Definition withoutAggregates (s : TableQueryBuilderState)
  : TableQueryBuilderState :=
  mkState (selectedColumns s) [] [] (orderBy s) (limit s) (filters s).

End Table.

(** ** The Logs view ([LogsQueryBuilder]) *)

Module Logs.

Record LogsQueryBuilderState : Type := mkState {
  otelEnabled : bool;
  otelVersion : string;
  selectedColumns : list SelectedColumn;
  timeColumn : option SelectedColumn;
  logLevelColumn : option SelectedColumn;
  messageColumn : option SelectedColumn;
  orderBy : list OrderBy;
  limit : number;
  filters : list Filter
}.

(** "Only select columns that don't have their own box". *)
Definition hasNoBox (c : SelectedColumn) : bool :=
  negb (hintIs Time c) && negb (hintIs LogLevel c) && negb (hintIs LogMessage c).

Definition builderState (builderOptions : QueryBuilderOptions)
  : LogsQueryBuilderState :=
  {| otelEnabled := orFalse (metaOtelEnabled builderOptions);
     otelVersion := orEmptyString (metaOtelVersion builderOptions);
     timeColumn := getColumnByHint builderOptions Time;
     logLevelColumn := getColumnByHint builderOptions LogLevel;
     messageColumn := getColumnByHint builderOptions LogMessage;
     selectedColumns :=
       orElse (option_map (filter hasNoBox) (QB.columns builderOptions)) [];
     filters := orElse (QB.filters builderOptions) [];
     orderBy := orElse (QB.orderBy builderOptions) [];
     limit := numberOrZero (QB.limit builderOptions) |}.

(** A box is empty or holds a column that carries the hint of the box (or no
    hint at all). *)
Definition slotCarries (h : ColumnHint) (slot : option SelectedColumn) : Prop :=
  match slot with
  | Some c => hint c = Some h \/ hint c = None
  | None => True
  end.

(** [nextColumns]: a copy of the selected columns, then each box that is
    filled, in the order time, log level, message. *)
Definition nextColumns (next : LogsQueryBuilderState) : list SelectedColumn :=
  selectedColumns next
  ++ pushIfDefined (timeColumn next)
  ++ pushIfDefined (logLevelColumn next)
  ++ pushIfDefined (messageColumn next).

(** The payload the mapping function hands to [setOptions]. *)
Definition nextOptions (next : LogsQueryBuilderState) : Partial.t :=
  {| Partial.mode := None;
     Partial.columns := Some (nextColumns next);
     Partial.aggregates := None;
     Partial.groupBy := None;
     Partial.filters := Some (filters next);
     Partial.orderBy := Some (orderBy next);
     Partial.limit := Some (limit next) |}.

(** The callback given to [useBuilderOptionChanges]. *)
Definition onChange (next : LogsQueryBuilderState) : BuilderOptionsReducerAction :=
  setOptions (nextOptions next).

(** [keyof LogsQueryBuilderState]. *)
Inductive Key : Type :=
| KotelEnabled | KotelVersion | KselectedColumns | KtimeColumn
| KlogLevelColumn | KmessageColumn | KorderBy | Klimit | Kfilters.

Definition Val (k : Key) : Type :=
  match k with
  | KotelEnabled => bool
  | KotelVersion => string
  | KselectedColumns => list SelectedColumn
  | KtimeColumn => option SelectedColumn
  | KlogLevelColumn => option SelectedColumn
  | KmessageColumn => option SelectedColumn
  | KorderBy => list OrderBy
  | Klimit => number
  | Kfilters => list Filter
  end.

Definition Key_eq_dec (a b : Key) : {a = b} + {a <> b}.
Proof. decide equality. Defined.

Definition getField (k : Key) (s : LogsQueryBuilderState) : Val k :=
  match k with
  | KotelEnabled => otelEnabled s
  | KotelVersion => otelVersion s
  | KselectedColumns => selectedColumns s
  | KtimeColumn => timeColumn s
  | KlogLevelColumn => logLevelColumn s
  | KmessageColumn => messageColumn s
  | KorderBy => orderBy s
  | Klimit => limit s
  | Kfilters => filters s
  end.

(** [{ ...state, [key]: value }]. *)
Definition setField (k : Key) : Val k -> LogsQueryBuilderState -> LogsQueryBuilderState :=
  match k with
  | KotelEnabled => fun v s =>
      mkState v (otelVersion s) (selectedColumns s) (timeColumn s)
        (logLevelColumn s) (messageColumn s) (orderBy s) (limit s) (filters s)
  | KotelVersion => fun v s =>
      mkState (otelEnabled s) v (selectedColumns s) (timeColumn s)
        (logLevelColumn s) (messageColumn s) (orderBy s) (limit s) (filters s)
  | KselectedColumns => fun v s =>
      mkState (otelEnabled s) (otelVersion s) v (timeColumn s)
        (logLevelColumn s) (messageColumn s) (orderBy s) (limit s) (filters s)
  | KtimeColumn => fun v s =>
      mkState (otelEnabled s) (otelVersion s) (selectedColumns s) v
        (logLevelColumn s) (messageColumn s) (orderBy s) (limit s) (filters s)
  | KlogLevelColumn => fun v s =>
      mkState (otelEnabled s) (otelVersion s) (selectedColumns s) (timeColumn s)
        v (messageColumn s) (orderBy s) (limit s) (filters s)
  | KmessageColumn => fun v s =>
      mkState (otelEnabled s) (otelVersion s) (selectedColumns s) (timeColumn s)
        (logLevelColumn s) v (orderBy s) (limit s) (filters s)
  | KorderBy => fun v s =>
      mkState (otelEnabled s) (otelVersion s) (selectedColumns s) (timeColumn s)
        (logLevelColumn s) (messageColumn s) v (limit s) (filters s)
  | Klimit => fun v s =>
      mkState (otelEnabled s) (otelVersion s) (selectedColumns s) (timeColumn s)
        (logLevelColumn s) (messageColumn s) (orderBy s) v (filters s)
  | Kfilters => fun v s =>
      mkState (otelEnabled s) (otelVersion s) (selectedColumns s) (timeColumn s)
        (logLevelColumn s) (messageColumn s) (orderBy s) (limit s) v
  end.

#[export] Instance shape : Reconciler.StateShape LogsQueryBuilderState.
Proof.
  refine {| Reconciler.Key := Key;
            Reconciler.Val := Val;
            Reconciler.key_eq_dec := Key_eq_dec;
            Reconciler.getField := getField;
            Reconciler.setField := setField |}.
  - intros k v s; destruct k; reflexivity.
  - intros k k' v s Hne; destruct k, k'; try reflexivity; congruence.
Defined.

(** A named partial update of the Logs view's state. *)
Abbreviation Update := (@Reconciler.Update LogsQueryBuilderState shape).

(** [onOptionChange(key)], the setter of one field: the update it queues. *)
Definition onOptionChange (k : Key) (v : Val k) : Update := existT _ k v.

(** The actions dispatched by one batch of setter calls on a render with
    [builderOptions]. *)
Definition commits (builderOptions : QueryBuilderOptions)
  (q : list Update) : list BuilderOptionsReducerAction :=
  snd (Reconciler.run onChange
         (Reconciler.mount (builderState builderOptions))
         (Reconciler.batch (builderState builderOptions) q)).

(** One transition of the view: a batch of editor changes, committed to the
    owner of the option model. *)
Definition edit (builderOptions : QueryBuilderOptions)
  (q : list Update) : QueryBuilderOptions :=
  OptionsState.dispatchAll builderOptions (commits builderOptions q).

(** Decomposing a model into the editable state and recommitting it at
    once, no field written in between. *)
Definition recommit (builderOptions : QueryBuilderOptions) : QueryBuilderOptions :=
  OptionsState.reducer builderOptions (onChange (builderState builderOptions)).

(** A box is empty or holds a column that carries the hint of the box. *)
Definition slotHolds (h : ColumnHint) (slot : option SelectedColumn) : Prop :=
  match slot with
  | Some c => hint c = Some h
  | None => True
  end.

(** The fields whose editor has [disabled={builderState.otelEnabled}]: the
    columns editor and the three column boxes. *)
Definition disabledSetters (s : LogsQueryBuilderState) : list Key :=
  if otelEnabled s
  then [KselectedColumns; KtimeColumn; KlogLevelColumn; KmessageColumn]
  else [].

(** The initial value of [showConfigWarning]:
    [datasource.getDefaultLogsColumns().size === 0 &&
     builderOptions.columns?.length === 0]; the size of the datasource's map
    of default log columns is what the view reads of it. *)
Definition initialShowConfigWarning (defaultLogsColumnsSize : nat)
  (builderOptions : QueryBuilderOptions) : bool :=
  Nat.eqb defaultLogsColumnsSize 0
  && match QB.columns builderOptions with
     | Some cs => Nat.eqb (List.length cs) 0
     | None => false
     end.

(** What happens to the warning after mount: the user closes the alert
    ([setConfigWarningOpen(false)]), or the view renders again with other
    props, which leaves the [useState] cell as it is. *)
Inductive WarningEvent : Type :=
| CloseWarning
| Rerender (defaultLogsColumnsSize : nat) (builderOptions : QueryBuilderOptions).

Definition warningStep (showConfigWarning : bool) (e : WarningEvent) : bool :=
  match e with
  | CloseWarning => false
  | Rerender _ _ => showConfigWarning
  end.

Definition isClose (e : WarningEvent) : bool :=
  match e with
  | CloseWarning => true
  | Rerender _ _ => false
  end.

(** [showConfigWarning] after a session of events. *)
Definition showConfigWarning (defaultLogsColumnsSize : nat)
  (builderOptions : QueryBuilderOptions) (events : list WarningEvent) : bool :=
  fold_left warningStep events
    (initialShowConfigWarning defaultLogsColumnsSize builderOptions).

End Logs.

(** ** The default rules of the Logs view ([logsQueryBuilderHooks]) *)

Module LogsHooks.

(** A column of the catalog ([useColumns]): its name and declared type. *)
Record TableColumn : Type := mkTableColumn {
  columnName : string;
  columnType : string
}.

(** The fixed column names of one version of the log schema convention. *)
Record OtelLogColumns : Type := mkOtelLogColumns {
  timeName : string;
  logLevelName : string;
  logMessageName : string
}.

Definition hinted (n : string) (h : ColumnHint) : SelectedColumn :=
  {| name := n; alias := None; hint := Some h |}.

(** The number of actions a rule dispatched over the renders of a session. *)
Definition proposals (outs : list (list BuilderOptionsReducerAction)) : nat :=
  List.length (List.concat outs).

(** *** Schema-convention column rule *)

Section OtelColumns.

(** The column names of each known convention version; the table itself is
    not part of the views. *)
Variable logColumnMap : string -> option OtelLogColumns.

(** The dependencies the rule last ran with; [None] before the first run. *)
Definition OtelRef : Type := option (bool * string).

Definition sameDeps (last : OtelRef) (enabled : bool) (version : string) : bool :=
  match last with
  | Some (e, v) => Bool.eqb e enabled && String.eqb v version
  | None => false
  end.

(** Modelled from the spec: the body of [useOtelColumns] is not part of the
    views.  With the flag enabled and a known version it "replaces the
    Time/LogLevel/LogMessage-hinted columns with the convention's fixed
    column names for that version". *)
Definition otelActions (enabled : bool) (version : string)
  : list BuilderOptionsReducerAction :=
  if enabled then
    match logColumnMap version with
    | Some m =>
        [setColumnByHint (hinted (timeName m) Time);
         setColumnByHint (hinted (logLevelName m) LogLevel);
         setColumnByHint (hinted (logMessageName m) LogMessage)]
    | None => []
    end
  else [].

(** Modelled from the spec: the rule "runs whenever the flag or version
    changes", the first render included. *)
Definition useOtelColumns (ref : OtelRef) (enabled : bool) (version : string)
  : OtelRef * list BuilderOptionsReducerAction :=
  if sameDeps ref enabled version then (ref, [])
  else (Some (enabled, version), otelActions enabled version).

End OtelColumns.

(** *** Default time column rule *)

Section DefaultTimeColumn.

(** [columnFilterDateTime] of [data/columnFilters]: the declared type is a
    timestamp-like type. *)
Variable columnFilterDateTime : TableColumn -> bool.

(** The name matches a recognised default-time-column convention. *)
Variable isDefaultTimeName : string -> bool.

Record TimeRef : Type := mkTimeRef {
  lastTable : string;
  fresh : bool
}.

(** What the view passes to the rule on a render. *)
Record TimeInput : Type := mkTimeInput {
  allColumns : list TableColumn;
  table : string;
  timeColumn : option SelectedColumn;
  otelEnabled : bool
}.

Definition isCandidate (c : TableColumn) : bool :=
  columnFilterDateTime c && isDefaultTimeName (columnName c).

(** No column of the catalog is a timestamp-like column whose name matches
    the default-time-column convention. *)
Definition noMatch (catalog : list TableColumn) : Prop :=
  forall d : TableColumn,
    In d catalog ->
    columnFilterDateTime d = false \/ isDefaultTimeName (columnName d) = false.

(** Modelled from the spec: the reference cell of the rule at the start of a
    "fresh query/table selection", the state the rule is in on a newly
    created query.  The view hands the rule the catalog, the table, the
    time column and the flag, and no new-query signal; how the hook tells a
    newly created query is not visible in the view, so a session of the rule
    is followed from the fresh selection on. *)
Definition freshSelection (table0 : string) : TimeRef :=
  {| lastTable := table0; fresh := true |}.

(** Modelled from the spec: the body of [useDefaultTimeColumn] is not part
    of the views.  "If no Time-hinted column is set and the convention flag
    is disabled, and the schema location changed or this is a newly created
    query, scans the Column Catalog for a column whose declared type is a
    timestamp-like type and whose name matches a recognized
    default-time-column convention; if found, proposes it as the Time-hinted
    column", the first match in catalog order, "at most once per fresh
    query/table selection".  A selection whose Time column has been set is
    no longer fresh. *)
Definition useDefaultTimeColumn (ref : TimeRef) (i : TimeInput)
  : TimeRef * list BuilderOptionsReducerAction :=
  let fresh' := fresh ref || negb (String.eqb (table i) (lastTable ref)) in
  match timeColumn i with
  | Some _ => ({| lastTable := table i; fresh := false |}, [])
  | None =>
      if otelEnabled i then ({| lastTable := table i; fresh := fresh' |}, [])
      else if fresh' then
        match find isCandidate (allColumns i) with
        | Some c =>
            ({| lastTable := table i; fresh := false |},
             [setColumnByHint (hinted (columnName c) Time)])
        | None => ({| lastTable := table i; fresh := fresh' |}, [])
        end
      else ({| lastTable := table i; fresh := fresh' |}, [])
  end.

(** The renders of a session, the actions of each render in order. *)
Fixpoint timeRenders (ref : TimeRef) (inputs : list TimeInput)
  : list (list BuilderOptionsReducerAction) :=
  match inputs with
  | [] => []
  | i :: inputs' =>
      let (ref', out) := useDefaultTimeColumn ref i in
      out :: timeRenders ref' inputs'
  end.

End DefaultTimeColumn.

(** *** Default filters and ordering rule *)

Section DefaultFilters.

(** The operator and operands of the default relative time range; the
    literal is a product default. *)
Variable timeRangeOperator : string.
Variable timeRangeOperands : list string.

Record FiltersInput : Type := mkFiltersInput {
  filtersTable : string;
  filtersTimeColumn : option SelectedColumn;
  filters : list Filter;
  orderBy : list OrderBy
}.

Definition defaultFilter (timeColumn : SelectedColumn) : Filter :=
  {| key := name timeColumn;
     operator := timeRangeOperator;
     operands := timeRangeOperands;
     condition := AND |}.

Definition defaultOrderBy (timeColumn : SelectedColumn) : OrderBy :=
  {| orderName := name timeColumn; dir := DESC |}.

Definition defaultFiltersPayload (timeColumn : SelectedColumn) : Partial.t :=
  {| Partial.mode := None;
     Partial.columns := None;
     Partial.aggregates := None;
     Partial.groupBy := None;
     Partial.filters := Some [defaultFilter timeColumn];
     Partial.orderBy := Some [defaultOrderBy timeColumn];
     Partial.limit := None |}.

Definition isEmpty {A : Type} (l : list A) : bool :=
  match l with
  | [] => true
  | _ :: _ => false
  end.

(** Modelled from the spec: the body of [useDefaultFilters] is not part of
    the views.  "When a Time-hinted column becomes available and the query
    has no filters and no explicit ordering yet, proposes a default filter
    and a default ordering (by that column, descending) -- applied once,
    keyed off filters/orderBy still empty".  The reference cell records that
    the defaults were applied. *)
Definition useDefaultFilters (applied : bool) (i : FiltersInput)
  : bool * list BuilderOptionsReducerAction :=
  if applied then (true, [])
  else
    match filtersTimeColumn i with
    | Some tc =>
        if isEmpty (filters i) && isEmpty (orderBy i)
        then (true, [setOptions (defaultFiltersPayload tc)])
        else (false, [])
    | None => (false, [])
    end.

(** The rule has nothing to propose yet: there is no Time column, or a
    filter or an ordering is there. *)
Definition notYet (j : FiltersInput) : Prop :=
  filtersTimeColumn j = None \/ filters j <> [] \/ orderBy j <> [].

Fixpoint filterRenders (applied : bool) (inputs : list FiltersInput)
  : list (list BuilderOptionsReducerAction) :=
  match inputs with
  | [] => []
  | i :: inputs' =>
      let (applied', out) := useDefaultFilters applied i in
      out :: filterRenders applied' inputs'
  end.

End DefaultFilters.

End LogsHooks.

(** ** Sample models *)

Module Samples.

(** A query nothing has been configured on. *)
Definition emptyOptions : QueryBuilderOptions :=
  {| database := "default";
     table := "logs";
     mode := None;
     columns := None;
     aggregates := None;
     groupBy := None;
     filters := None;
     orderBy := None;
     limit := None;
     meta := None |}.

(** A query saved from Aggregate mode with a group-by and no aggregate. *)
Definition groupedOptions : QueryBuilderOptions :=
  {| database := "default";
     table := "logs";
     mode := Some BuilderMode.Aggregate;
     columns := Some [];
     aggregates := Some [];
     groupBy := Some ["service"];
     filters := Some [];
     orderBy := Some [];
     limit := Some (Num 100);
     meta := None |}.

Definition col (n : string) (h : option ColumnHint) : SelectedColumn :=
  {| name := n; alias := None; hint := h |}.

(** A logs query with a body column and the three boxes filled. *)
Definition logsOptions : QueryBuilderOptions :=
  {| database := "default";
     table := "logs";
     mode := None;
     columns := Some [col "ts" (Some Time); col "host" None;
                      col "level" (Some LogLevel); col "body" (Some LogMessage)];
     aggregates := None;
     groupBy := None;
     filters := Some [];
     orderBy := Some [];
     limit := Some (Num 100);
     meta := None |}.

(** A model in which two columns carry the Time hint. *)
Definition twoTimeOptions : QueryBuilderOptions :=
  {| database := "default";
     table := "logs";
     mode := None;
     columns := Some [col "ts" (Some Time); col "ts2" (Some Time)];
     aggregates := None;
     groupBy := None;
     filters := None;
     orderBy := None;
     limit := None;
     meta := None |}.

(** A convention table that knows the version "v1". *)
Definition otelColumns (version : string) : option LogsHooks.OtelLogColumns :=
  if String.eqb version "v1"
  then Some {| LogsHooks.timeName := "Timestamp";
               LogsHooks.logLevelName := "SeverityText";
               LogsHooks.logMessageName := "Body" |}
  else None.

(** A catalog with a timestamp column named [timestamp] and a string column. *)
Definition catalog : list LogsHooks.TableColumn :=
  [ {| LogsHooks.columnName := "msg"; LogsHooks.columnType := "String" |};
    {| LogsHooks.columnName := "timestamp"; LogsHooks.columnType := "DateTime" |} ].

Definition isDateTime (c : LogsHooks.TableColumn) : bool :=
  String.eqb (LogsHooks.columnType c) "DateTime".

Definition isTimestampName (n : string) : bool := String.eqb n "timestamp".

(** Renders of the Logs view as the default time column rule sees them: the
    catalog still loading, the catalog loaded, and the Time column cleared
    by the user afterwards. *)
Definition renderLoading : LogsHooks.TimeInput :=
  {| LogsHooks.allColumns := [];
     LogsHooks.table := "logs";
     LogsHooks.timeColumn := None;
     LogsHooks.otelEnabled := false |}.

Definition renderLoaded : LogsHooks.TimeInput :=
  {| LogsHooks.allColumns := catalog;
     LogsHooks.table := "logs";
     LogsHooks.timeColumn := None;
     LogsHooks.otelEnabled := false |}.

Definition renderProposed : LogsHooks.TimeInput :=
  {| LogsHooks.allColumns := catalog;
     LogsHooks.table := "logs";
     LogsHooks.timeColumn := Some (LogsHooks.hinted "timestamp" Time);
     LogsHooks.otelEnabled := false |}.

Definition renderCleared : LogsHooks.TimeInput := renderLoaded.

(** Renders as the default filters rule sees them: no Time column yet, the
    Time column picked, the defaults in place, and both cleared by the
    user. *)
Definition filtersRender (tc : option SelectedColumn) (fs : list Filter)
  (os : list OrderBy) : LogsHooks.FiltersInput :=
  {| LogsHooks.filtersTable := "logs";
     LogsHooks.filtersTimeColumn := tc;
     LogsHooks.filters := fs;
     LogsHooks.orderBy := os |}.

(** A logs query with the convention flag enabled and the convention's
    columns in place. *)
Definition otelOptions : QueryBuilderOptions :=
  {| database := "default";
     table := "otel_logs";
     mode := None;
     columns := Some [col "Timestamp" (Some Time); col "host" None;
                      col "SeverityText" (Some LogLevel);
                      col "Body" (Some LogMessage)];
     aggregates := None;
     groupBy := None;
     filters := Some [];
     orderBy := Some [];
     limit := Some (Num 100);
     meta := Some {| otelEnabled := Some true; otelVersion := Some "v1" |} |}.

(** A saved query whose limit is negative. *)
Definition negativeLimitOptions : QueryBuilderOptions :=
  {| database := "default";
     table := "logs";
     mode := None;
     columns := Some [];
     aggregates := Some [];
     groupBy := Some [];
     filters := Some [];
     orderBy := Some [];
     limit := Some (Num (-5));
     meta := None |}.

End Samples.

(** * Properties *)

(** ** The change reconciler *)

Module ReconcilerFacts.

Import Reconciler.

Section WithShape.

Context {T : Type} {shape : StateShape T}.

Lemma getField_applyUpdate (k : Key) (s : T) (u : Update) :
  getField k (applyUpdate s u) =
  match castTo k u with
  | Some v => v
  | None => getField k s
  end.
Proof.
  destruct u as [k' v']. unfold applyUpdate, castTo. simpl.
  destruct (key_eq_dec k' k) as [e | n].
  - destruct e. simpl. apply get_set_same.
  - apply get_set_other. exact n.
Qed.

(** Reading a field of the merged state: the last queued write to it, else
    the snapshot's value. *)
Lemma getField_mergeQueue (k : Key) (q : list Update) :
  forall s : T,
    getField k (mergeQueue s q) =
    match lastWrite k q with
    | Some v => v
    | None => getField k s
    end.
Proof.
  induction q as [| u q IH]; intro s.
  - reflexivity.
  - unfold mergeQueue in *. simpl. rewrite IH.
    destruct (lastWrite k q) as [v |].
    + reflexivity.
    + apply getField_applyUpdate.
Qed.

Lemma castTo_same (k : Key) (v : Val k) : castTo k (update k v) = Some v.
Proof.
  unfold castTo, update. simpl.
  destruct (key_eq_dec k k) as [e | n].
  - f_equal.
    rewrite (Eqdep_dec.UIP_dec key_eq_dec e eq_refl). reflexivity.
  - congruence.
Qed.

Lemma castTo_other (k : Key) (u : Update) :
  projT1 u <> k -> castTo k u = None.
Proof.
  intro Hne. unfold castTo.
  destruct (key_eq_dec (projT1 u) k); [contradiction | reflexivity].
Qed.

(** [lastWrite] is the last write: a write to [k] at the end of the queue is
    its value, a write to another field at the end is skipped. *)
Lemma lastWrite_snoc_same (k : Key) (v : Val k) (q : list Update) :
  lastWrite k (q ++ [update k v]) = Some v.
Proof.
  induction q as [| u q IH]; simpl.
  - apply castTo_same.
  - rewrite IH. reflexivity.
Qed.

Lemma lastWrite_snoc_other (k : Key) (u : Update) (q : list Update) :
  projT1 u <> k -> lastWrite k (q ++ [u]) = lastWrite k q.
Proof.
  intro Hne. induction q as [| u0 q IH]; simpl.
  - apply castTo_other. exact Hne.
  - rewrite IH. reflexivity.
Qed.

Lemma lastWrite_unmentioned (k : Key) (q : list Update) :
  unmentioned k q -> lastWrite k q = None.
Proof.
  induction 1 as [| u q Hu _ IH]; simpl.
  - reflexivity.
  - rewrite IH. apply castTo_other. exact Hu.
Qed.

Section WithOnChange.

Context {C : Type}.
Variable onChange : T -> C.

(** Setter calls only grow the queue. *)
Lemma run_setters (q : list Update) :
  forall (s : T) (q0 : list Update) (rest : list Event),
    run onChange {| current := s; queue := q0 |} (map Setter q ++ rest) =
    run onChange {| current := s; queue := q0 ++ q |} rest.
Proof.
  induction q as [| u q IH]; intros s q0 rest; simpl.
  - rewrite app_nil_r. reflexivity.
  - rewrite IH. rewrite <- app_assoc. simpl.
    destruct (run onChange {| current := s; queue := q0 ++ u :: q |} rest).
    reflexivity.
Qed.

(** A batch with at least one setter call commits once, the merge of the
    queue over the snapshot of its render. *)
Lemma run_batch (s0 snapshot : T) (u : Update) (q : list Update) :
  snd (run onChange (mount s0) (batch snapshot (u :: q))) =
  [onChange (mergeQueue snapshot (u :: q))].
Proof.
  unfold batch, mount.
  cbn [run step queue current].
  change (Setter u :: map Setter q ++ [Settle])
    with (map Setter (u :: q) ++ [Settle]).
  rewrite run_setters. reflexivity.
Qed.

(** Without a setter call nothing is committed. *)
Lemma run_batch_nil (s0 snapshot : T) :
  snd (run onChange (mount s0) (batch snapshot [])) = [].
Proof. reflexivity. Qed.

(** Whatever state the hook was mounted with, a batch of setter calls
    queued against the snapshot of one render commits exactly once, and the
    state handed to the mapping function has, for every field, the last
    value written to that field within the batch; a field no queued update
    mentions has the value of that snapshot. *)
Theorem batch_commits_last_write_per_field
  (s0 snapshot : T) (u : Update) (q : list Update) :
  exists next : T,
    snd (run onChange (mount s0) (batch snapshot (u :: q))) = [onChange next]
    /\ forall k : Key,
         (forall v : Val k,
             lastWrite k (u :: q) = Some v -> getField k next = v)
         /\ (unmentioned k (u :: q) ->
             getField k next = getField k snapshot).
Proof.
  exists (mergeQueue snapshot (u :: q)). split.
  - apply run_batch.
  - intro k. split.
    + intros v Hv. rewrite getField_mergeQueue, Hv. reflexivity.
    + intro Hun. rewrite getField_mergeQueue.
      rewrite (lastWrite_unmentioned k (u :: q) Hun). reflexivity.
Qed.

(** The state of the hook after a batch: the snapshot of its render and an
    empty queue. *)
Lemma run_batch_then (s0 snapshot : T) (q : list Update) (rest : list Event) :
  run onChange (mount s0) (batch snapshot q ++ rest) =
  let (r, out) := run onChange (mount snapshot) rest in
  (r, (if hasUpdate (snapshot, q)
       then [onChange (mergeQueue snapshot q)] else []) ++ out).
Proof.
  unfold batch, mount. rewrite <- app_comm_cons, <- app_assoc.
  cbn [run step queue current]. rewrite run_setters.
  cbn [app run step queue current hasUpdate snd].
  destruct q as [| u q]; cbn [app];
    destruct (run onChange {| current := snapshot; queue := [] |} rest);
    reflexivity.
Qed.

(** Every batch of a session commits once, the merge of its own queue over
    the snapshot of its own render; a batch without a setter call commits
    nothing. *)
Lemma run_session (batches : list (T * list Update)) :
  forall s0 : T,
    snd (run onChange (mount s0) (session batches)) =
    map (fun b => onChange (mergeQueue (fst b) (snd b)))
      (filter hasUpdate batches).
Proof.
  induction batches as [| [snapshot q] batches IH]; intro s0.
  - reflexivity.
  - unfold session. cbn [map List.concat fst snd].
    rewrite run_batch_then. fold (session batches).
    specialize (IH snapshot).
    destruct (run onChange (mount snapshot) (session batches)) as [r out].
    cbn [snd] in *. rewrite IH. cbn [filter].
    destruct (hasUpdate (snapshot, q)); reflexivity.
Qed.

End WithOnChange.

(** The merged state field by field. *)
Lemma getField_written (k : Key) (snapshot : T) (q : list Update) :
  getField k (mergeQueue snapshot q) = written k snapshot q.
Proof. apply getField_mergeQueue. Qed.

End WithShape.

(** Two limit changes and a filter change fired in one tick of the Table
    view: one commit, with the second limit, and with the group-by of the
    snapshot the batch was queued against, not of the state the hook was
    mounted with. *)
Lemma batch_commits_last_write_per_field_witness :
  exists next : Table.TableQueryBuilderState,
    snd (run (Table.onChange true)
           (mount (Table.builderState Samples.emptyOptions))
           (batch (Table.builderState Samples.groupedOptions)
              [Table.onOptionChange Table.Klimit (Num 5);
               Table.onOptionChange Table.Kfilters [];
               Table.onOptionChange Table.Klimit (Num 7)]))
    = [Table.onChange true next]
    /\ Table.limit next = Num 7
    /\ Table.groupBy next = ["service"].
Proof.
  destruct (batch_commits_last_write_per_field (Table.onChange true)
              (Table.builderState Samples.emptyOptions)
              (Table.builderState Samples.groupedOptions)
              (Table.onOptionChange Table.Klimit (Num 5))
              [Table.onOptionChange Table.Kfilters [];
               Table.onOptionChange Table.Klimit (Num 7)]) as [next [Hrun Hk]].
  exists next. split; [exact Hrun |]. split.
  - apply (proj1 (Hk Table.Klimit)). reflexivity.
  - apply (proj2 (Hk Table.KgroupBy)). repeat constructor; discriminate.
Defined.

End ReconcilerFacts.

(** ** The owner of the option model *)

Module OptionsStateFacts.

Import OptionsState.

Lemma dispatchAll_one (o : QueryBuilderOptions) (p : Partial.t) :
  dispatchAll o [setOptions p] = mergeOptions o p.
Proof. reflexivity. Qed.

Lemma dispatchAll_nil (o : QueryBuilderOptions) : dispatchAll o [] = o.
Proof. reflexivity. Qed.

End OptionsStateFacts.

(** ** The Table view *)

Module TableFacts.

Import Table.

Local Abbreviation mergeQueue := (@Reconciler.mergeQueue _ shape).
Local Abbreviation lastWrite := (@Reconciler.lastWrite _ shape).
Local Abbreviation unmentioned := (@Reconciler.unmentioned _ shape).

(** A batch with at least one setter call dispatches one [setOptions]. *)
Lemma table_commits_cons (c : Component) (u : Update) (q : list Update) :
  commits c (u :: q) =
  [onChange (isAggregateMode c)
     (mergeQueue (builderState (builderOptions c)) (u :: q))].
Proof. unfold commits. apply ReconcilerFacts.run_batch. Qed.

Lemma commits_nil (c : Component) : commits c [] = [].
Proof. reflexivity. Qed.

Lemma step_edit_cons (c : Component) (u : Update) (q : list Update) :
  builderOptions (step c (Edit (u :: q))) =
  OptionsState.mergeOptions (builderOptions c)
    (nextOptions (isAggregateMode c)
       (mergeQueue (builderState (builderOptions c)) (u :: q))).
Proof.
  cbn [step builderOptions]. rewrite table_commits_cons. reflexivity.
Qed.

Lemma of_nat_length_pos {A : Type} (a : A) (l : list A) :
  (orZero (Some (Z.of_nat (List.length (a :: l)))) >? 0) = true.
Proof.
  unfold orZero.
  destruct (Z.of_nat (List.length (a :: l)) =? 0) eqn:E.
  - apply Z.eqb_eq in E. simpl List.length in E. lia.
  - apply Z.gtb_lt. simpl List.length. lia.
Qed.

(** C5.  The mode the Table view mounts in is Aggregate exactly when the
    loaded model has a non-empty [aggregates] sequence; a model without
    [aggregates] counts as empty and mounts in List mode. *)
Theorem mount_aggregate_mode_iff (o : QueryBuilderOptions) :
  isAggregateMode (mount o) = true <-> orElse (QB.aggregates o) [] <> [].
Proof.
  unfold mount, initialAggregateMode. cbn [isAggregateMode].
  destruct (QB.aggregates o) as [[| a l] |]; cbn [option_map orElse].
  - split; [discriminate | congruence].
  - split; [discriminate | intros _; apply of_nat_length_pos].
  - split; [discriminate | congruence].
Qed.

Lemma step_edit_nonempty (c : Component) (q : list Update) :
  q <> [] ->
  builderOptions (step c (Edit q)) =
  OptionsState.mergeOptions (builderOptions c)
    (nextOptions (isAggregateMode c)
       (mergeQueue (builderState (builderOptions c)) q)).
Proof.
  destruct q as [| u q]; [congruence | intros _; apply step_edit_cons].
Qed.

(** Reading a field of the merged editable state. *)
Lemma table_merged_field (k : Key) (s : TableQueryBuilderState) (q : list Update) :
  getField k (mergeQueue s q) =
  match lastWrite k q with
  | Some v => v
  | None => getField k s
  end.
Proof. exact (ReconcilerFacts.getField_mergeQueue k q s). Qed.

Lemma lastWrite_aggregates_then_groupBy
  (q : list Update) (a : list AggregateColumn) (g : list string) :
  lastWrite Kaggregates
    (q ++ [onOptionChange Kaggregates a; onOptionChange KgroupBy g]) = Some a
  /\ lastWrite KgroupBy
    (q ++ [onOptionChange Kaggregates a; onOptionChange KgroupBy g]) = Some g.
Proof.
  change (q ++ [onOptionChange Kaggregates a; onOptionChange KgroupBy g])
    with (q ++ [onOptionChange Kaggregates a] ++ [onOptionChange KgroupBy g]).
  rewrite app_assoc. split.
  - rewrite ReconcilerFacts.lastWrite_snoc_other by discriminate.
    apply (ReconcilerFacts.lastWrite_snoc_same (shape := shape) Kaggregates a q).
  - apply (ReconcilerFacts.lastWrite_snoc_same (shape := shape) KgroupBy g).
Qed.

(** C3.  Every commit of the Table view made in List mode carries the mode
    List with empty [aggregates] and [groupBy].  Hence aggregates and
    group-bys written in Aggregate mode are in the model after that commit,
    are gone after the first commit back in List mode, and the editors show
    none when the mode is switched to Aggregate again. *)
Theorem list_mode_commit_clears_aggregates
  (o : QueryBuilderOptions) (c : Component)
  (a0 : AggregateColumn) (a : list AggregateColumn) (g0 : string)
  (g : list string) (q1 : list Update) (u : Update) (q : list Update) :
  (exists p : Partial.t,
      commits {| isAggregateMode := false; builderOptions := o |} (u :: q)
      = [setOptions p]
      /\ Partial.mode p = Some BuilderMode.List
      /\ Partial.aggregates p = Some []
      /\ Partial.groupBy p = Some [])
  /\
  let c1 :=
    steps c [ModeSwitch false; ModeSwitch true;
             Edit (q1 ++ [onOptionChange Kaggregates (a0 :: a);
                          onOptionChange KgroupBy (g0 :: g)])] in
  let c2 := steps c1 [ModeSwitch false; Edit (u :: q)] in
  let c3 := step c2 (ModeSwitch true) in
  (QB.aggregates (builderOptions c1) = Some (a0 :: a)
   /\ QB.groupBy (builderOptions c1) = Some (g0 :: g))
  /\ (QB.mode (builderOptions c2) = Some BuilderMode.List
      /\ QB.aggregates (builderOptions c2) = Some []
      /\ QB.groupBy (builderOptions c2) = Some [])
  /\ (isAggregateMode c3 = true
      /\ QB.aggregates (builderOptions c3) = Some []
      /\ QB.groupBy (builderOptions c3) = Some []
      /\ aggregates (builderState (builderOptions c3)) = []
      /\ groupBy (builderState (builderOptions c3)) = []).
Proof.
  split.
  - eexists. split; [apply table_commits_cons |]. cbn. repeat split.
  - cbv zeta. unfold steps. cbn [fold_left].
    set (q2 := q1 ++ _).
    assert (Hq2 : q2 <> []) by (subst q2; destruct q1; discriminate).
    destruct (lastWrite_aggregates_then_groupBy q1 (a0 :: a) (g0 :: g))
      as [Ha Hg]. fold q2 in Ha, Hg.
    split; [| split].
    + rewrite (step_edit_nonempty _ q2 Hq2). cbn.
      pose proof (table_merged_field Kaggregates
                    (builderState (builderOptions c)) q2) as Ea.
      pose proof (table_merged_field KgroupBy
                    (builderState (builderOptions c)) q2) as Eg.
      rewrite Ha in Ea. rewrite Hg in Eg. cbn in Ea, Eg.
      rewrite Ea, Eg. split; reflexivity.
    + rewrite step_edit_cons. cbn. repeat split.
    + cbn [step isAggregateMode builderOptions].
      rewrite table_commits_cons. cbn. repeat split.
Qed.

Lemma table_merged_unmentioned (k : Key) (s : TableQueryBuilderState) (q : list Update) :
  unmentioned k q -> getField k (mergeQueue s q) = getField k s.
Proof.
  intro Hun. rewrite table_merged_field.
  rewrite (ReconcilerFacts.lastWrite_unmentioned (shape := shape) k q Hun).
  reflexivity.
Qed.

(** The mode switch alone commits nothing. *)
Lemma step_mode_switch (c : Component) (value : bool) :
  builderOptions (step c (ModeSwitch value)) = builderOptions c.
Proof. reflexivity. Qed.

(** C4, as the view behaves.  Switching to Aggregate mode commits nothing:
    the option model, [columns] included, is the one before the switch, and
    the aggregate and group-by editors start from what that model holds.  A
    later commit that writes none of these fields carries them over
    (a missing sequence as the empty one).  After a commit made in List mode
    the model holds none, so both editors start empty. *)
Theorem switch_to_aggregate_keeps_model
  (c : Component) (q : list Update)
  (o : QueryBuilderOptions) (u0 : Update) (q0 : list Update) :
  let c' := step c (ModeSwitch true) in
  builderOptions c' = builderOptions c
  /\ isAggregateMode c' = true
  /\ aggregates (builderState (builderOptions c'))
     = orElse (QB.aggregates (builderOptions c)) []
  /\ groupBy (builderState (builderOptions c'))
     = orElse (QB.groupBy (builderOptions c)) []
  /\ (q <> [] -> unmentioned KselectedColumns q ->
      QB.columns (builderOptions (step c' (Edit q)))
      = Some (orElse (QB.columns (builderOptions c)) []))
  /\ (q <> [] -> unmentioned Kaggregates q ->
      QB.aggregates (builderOptions (step c' (Edit q)))
      = Some (orElse (QB.aggregates (builderOptions c)) []))
  /\ (q <> [] -> unmentioned KgroupBy q ->
      QB.groupBy (builderOptions (step c' (Edit q)))
      = Some (orElse (QB.groupBy (builderOptions c)) []))
  /\ (let cList :=
        step {| isAggregateMode := false; builderOptions := o |}
          (Edit (u0 :: q0)) in
      let cAgg := step cList (ModeSwitch true) in
      aggregates (builderState (builderOptions cAgg)) = []
      /\ groupBy (builderState (builderOptions cAgg)) = []).
Proof.
  cbv zeta. repeat split.
  - intros Hq Hun. rewrite (step_edit_nonempty _ q Hq). cbn.
    f_equal. exact (table_merged_unmentioned KselectedColumns _ q Hun).
  - intros Hq Hun. rewrite (step_edit_nonempty _ q Hq). cbn.
    f_equal. exact (table_merged_unmentioned Kaggregates _ q Hun).
  - intros Hq Hun. rewrite (step_edit_nonempty _ q Hq). cbn.
    f_equal. exact (table_merged_unmentioned KgroupBy _ q Hun).
  - cbn [step isAggregateMode builderOptions].
    rewrite table_commits_cons. reflexivity.
  - cbn [step isAggregateMode builderOptions].
    rewrite table_commits_cons. reflexivity.
Qed.

(** The switch at work on a saved query: a limit change after switching to
    Aggregate mode keeps the columns and the group-by of the model. *)
Lemma switch_to_aggregate_keeps_model_witness :
  let c' := step (mount Samples.groupedOptions) (ModeSwitch true) in
  builderOptions c' = Samples.groupedOptions
  /\ QB.columns (builderOptions (step c' (Edit [onOptionChange Klimit (Num 10)])))
     = Some []
  /\ QB.groupBy (builderOptions (step c' (Edit [onOptionChange Klimit (Num 10)])))
     = Some ["service"].
Proof.
  pose proof (switch_to_aggregate_keeps_model
                (mount Samples.groupedOptions) [onOptionChange Klimit (Num 10)]
                Samples.emptyOptions (onOptionChange Klimit (Num 10)) [])
    as [H1 [_ [_ [_ [H5 [_ [H7 _]]]]]]].
  split; [exact H1 |]. split.
  - apply H5; [discriminate | repeat constructor; discriminate].
  - apply H7; [discriminate | repeat constructor; discriminate].
Defined.

(** C4, as stated, fails on a query saved with a group-by and no aggregate:
    it mounts in List mode, and after the switch to Aggregate mode the
    group-by is the saved one, in the editor and in the next commit, not an
    empty sequence. *)
Lemma switch_to_aggregate_shows_saved_groupBy :
  let c' := step (mount Samples.groupedOptions) (ModeSwitch true) in
  isAggregateMode (mount Samples.groupedOptions) = false
  /\ isAggregateMode c' = true
  /\ groupBy (builderState (builderOptions c')) = ["service"]
  /\ QB.groupBy (builderOptions (step c' (Edit [onOptionChange Klimit (Num 10)])))
     = Some ["service"]
  /\ groupBy (builderState (builderOptions c')) <> [].
Proof.
  cbv zeta. repeat split. discriminate.
Qed.

End TableFacts.

(** ** Column hints *)

Module HintFacts.

Lemma hint_eqb_eq (a b : ColumnHint) : hint_eqb a b = true <-> a = b.
Proof.
  unfold hint_eqb. destruct (ColumnHint_eq_dec a b); split; congruence.
Qed.

Lemma hintIs_true (h : ColumnHint) (c : SelectedColumn) :
  hintIs h c = true <-> hint c = Some h.
Proof.
  unfold hintIs. destruct (hint c) as [h' |].
  - rewrite hint_eqb_eq. split; congruence.
  - split; discriminate.
Qed.

Lemma hintIs_false (h : ColumnHint) (c : SelectedColumn) :
  hintIs h c = false <-> hint c <> Some h.
Proof.
  rewrite <- hintIs_true. destruct (hintIs h c); split; congruence.
Qed.

Lemma hintsOf_app (a b : list SelectedColumn) :
  hintsOf (a ++ b) = hintsOf a ++ hintsOf b.
Proof.
  induction a as [| c a IH]; simpl.
  - reflexivity.
  - destruct (hint c); simpl; rewrite IH; reflexivity.
Qed.

Lemma in_hintsOf (h : ColumnHint) (cs : list SelectedColumn) :
  In h (hintsOf cs) <-> exists c, In c cs /\ hint c = Some h.
Proof.
  induction cs as [| c cs IH]; simpl.
  - split; [contradiction | intros [c [[] _]]].
  - destruct (hint c) as [h' |] eqn:E; simpl; rewrite ?IH; split.
    + intros [-> | [c' [Hin Hh]]]; [exists c; auto | exists c'; auto].
    + intros [c' [[-> | Hin] Hh]]; [left; congruence | right; exists c'; auto].
    + intros [c' [Hin Hh]]; exists c'; auto.
    + intros [c' [[-> | Hin] Hh]]; [congruence | exists c'; auto].
Qed.

(** With at most one carrier, looking the carrier up loses none. *)
Lemma find_is_filter (p : SelectedColumn -> bool) (cs : list SelectedColumn) :
  (List.length (filter p cs) <= 1)%nat ->
  pushIfDefined (find p cs) = filter p cs.
Proof.
  induction cs as [| c cs IH]; simpl; intro Hlen.
  - reflexivity.
  - destruct (p c); simpl in *.
    + destruct (filter p cs); [reflexivity | simpl in Hlen; lia].
    + apply IH. exact Hlen.
Qed.

End HintFacts.

(** ** The Logs view *)

Module LogsFacts.

Import Logs HintFacts.

Local Abbreviation mergeQueue := (@Reconciler.mergeQueue _ shape).
Local Abbreviation lastWrite := (@Reconciler.lastWrite _ shape).
Local Abbreviation unmentioned := (@Reconciler.unmentioned _ shape).

Lemma logs_commits_cons (o : QueryBuilderOptions) (u : Update) (q : list Update) :
  commits o (u :: q) = [onChange (mergeQueue (builderState o) (u :: q))].
Proof. unfold commits. apply ReconcilerFacts.run_batch. Qed.

Lemma edit_nonempty (o : QueryBuilderOptions) (q : list Update) :
  q <> [] ->
  edit o q =
  OptionsState.mergeOptions o (nextOptions (mergeQueue (builderState o) q)).
Proof.
  destruct q as [| u q]; [congruence | intros _].
  unfold edit. rewrite logs_commits_cons. reflexivity.
Qed.

Lemma logs_merged_field (k : Key) (s : LogsQueryBuilderState) (q : list Update) :
  getField k (mergeQueue s q) =
  match lastWrite k q with
  | Some v => v
  | None => getField k s
  end.
Proof. exact (ReconcilerFacts.getField_mergeQueue k q s). Qed.

Lemma logs_merged_unmentioned (k : Key) (s : LogsQueryBuilderState) (q : list Update) :
  unmentioned k q -> getField k (mergeQueue s q) = getField k s.
Proof.
  intro Hun. rewrite logs_merged_field.
  rewrite (ReconcilerFacts.lastWrite_unmentioned (shape := shape) k q Hun).
  reflexivity.
Qed.

(** *** Hints of the committed columns *)

Lemma hasNoBox_hint (c : SelectedColumn) :
  hasNoBox c = true <->
  hint c <> Some Time /\ hint c <> Some LogLevel /\ hint c <> Some LogMessage.
Proof.
  unfold hasNoBox. rewrite !andb_true_iff, !negb_true_iff, !hintIs_false.
  tauto.
Qed.

Lemma unboxed_hints (cs : list SelectedColumn) (h : ColumnHint) :
  forallb hasNoBox cs = true -> In h (hintsOf cs) ->
  h <> Time /\ h <> LogLevel /\ h <> LogMessage.
Proof.
  intros Hall Hin. apply in_hintsOf in Hin as [c [Hc Hh]].
  rewrite forallb_forall in Hall. specialize (Hall c Hc).
  apply hasNoBox_hint in Hall. rewrite Hh in Hall.
  destruct Hall as [H1 [H2 H3]]. repeat split; congruence.
Qed.

(** The hints a filled or empty box contributes. *)
Lemma slot_hints (h : ColumnHint) (slot : option SelectedColumn) :
  slotCarries h slot ->
  hintsOf (pushIfDefined slot) = [h] \/ hintsOf (pushIfDefined slot) = [].
Proof.
  destruct slot as [c |]; simpl.
  - intros [E | E]; rewrite E; auto.
  - auto.
Qed.

Lemma boxes_hints (t l m : option SelectedColumn) :
  slotCarries Time t -> slotCarries LogLevel l -> slotCarries LogMessage m ->
  NoDup (hintsOf (pushIfDefined t ++ pushIfDefined l ++ pushIfDefined m))
  /\ forall h, In h (hintsOf (pushIfDefined t ++ pushIfDefined l ++ pushIfDefined m)) ->
               h = Time \/ h = LogLevel \/ h = LogMessage.
Proof.
  intros Ht Hl Hm. rewrite !hintsOf_app.
  destruct (slot_hints Time t Ht) as [-> | ->];
    destruct (slot_hints LogLevel l Hl) as [-> | ->];
    destruct (slot_hints LogMessage m Hm) as [-> | ->]; simpl;
    (split; [repeat constructor; simpl; intuition discriminate
           | intuition congruence]).
Qed.

(** The commit mapping keeps hints apart when the editable state does. *)
Lemma nextColumns_hintsUnique (next : LogsQueryBuilderState) :
  hintsUnique (selectedColumns next) ->
  forallb hasNoBox (selectedColumns next) = true ->
  slotCarries Time (timeColumn next) ->
  slotCarries LogLevel (logLevelColumn next) ->
  slotCarries LogMessage (messageColumn next) ->
  hintsUnique (nextColumns next).
Proof.
  intros Hsel Hbox Ht Hl Hm. unfold hintsUnique, nextColumns.
  rewrite hintsOf_app.
  destruct (boxes_hints _ _ _ Ht Hl Hm) as [Hnd Hin].
  apply NoDup_app; [exact Hsel | exact Hnd |].
  intros h Hh Hh'.
  destruct (unboxed_hints _ h Hbox Hh) as [N1 [N2 N3]].
  destruct (Hin h Hh') as [E | [E | E]]; contradiction.
Qed.

(** The editable state read off a model never has a boxed hint among the
    selected columns, and each box holds a carrier of its own hint. *)
Lemma builderState_boxes (o : QueryBuilderOptions) :
  forallb hasNoBox (selectedColumns (builderState o)) = true
  /\ slotCarries Time (timeColumn (builderState o))
  /\ slotCarries LogLevel (logLevelColumn (builderState o))
  /\ slotCarries LogMessage (messageColumn (builderState o)).
Proof.
  unfold builderState, getColumnByHint. cbn.
  split; [| repeat split].
  - destruct (QB.columns o) as [cs |]; cbn; [| reflexivity].
    apply forallb_forall. intros c Hc. apply filter_In in Hc. tauto.
  - destruct (find (hintIs Time) (orElse (QB.columns o) [])) eqn:E; cbn; [| exact I].
    apply find_some in E. left. apply hintIs_true. tauto.
  - destruct (find (hintIs LogLevel) (orElse (QB.columns o) [])) eqn:E; cbn; [| exact I].
    apply find_some in E. left. apply hintIs_true. tauto.
  - destruct (find (hintIs LogMessage) (orElse (QB.columns o) [])) eqn:E; cbn; [| exact I].
    apply find_some in E. left. apply hintIs_true. tauto.
Qed.

(** C2, as the view behaves.  A transition of the Logs view commits a
    [columns] sequence in which no two entries carry the same hint, provided
    the merged editable state keeps hints apart: the selected columns carry
    pairwise distinct hints and none of Time, LogLevel, LogMessage, and
    every box is empty or holds a column carrying the hint of that box. *)
Theorem logs_commit_hints_unique (o : QueryBuilderOptions) (q : list Update) :
  let next := mergeQueue (builderState o) q in
  q <> [] ->
  hintsUnique (selectedColumns next) ->
  forallb hasNoBox (selectedColumns next) = true ->
  slotCarries Time (timeColumn next) ->
  slotCarries LogLevel (logLevelColumn next) ->
  slotCarries LogMessage (messageColumn next) ->
  exists cs : list SelectedColumn,
    QB.columns (edit o q) = Some cs /\ hintsUnique cs.
Proof.
  intros next Hq Hsel Hbox Ht Hl Hm.
  exists (nextColumns next). split.
  - rewrite (edit_nonempty o q Hq). reflexivity.
  - apply nextColumns_hintsUnique; assumption.
Qed.

(** The model of the sample logs query keeps hints apart, and so does the
    commit of a new time column together with a limit. *)
Lemma logs_commit_hints_unique_witness :
  exists cs : list SelectedColumn,
    QB.columns
      (edit Samples.logsOptions
         [onOptionChange KtimeColumn (Some (Samples.col "time2" (Some Time)));
          onOptionChange Klimit (Num 5)]) = Some cs
    /\ hintsUnique cs.
Proof.
  apply (logs_commit_hints_unique Samples.logsOptions
           [onOptionChange KtimeColumn (Some (Samples.col "time2" (Some Time)));
            onOptionChange Klimit (Num 5)]).
  - discriminate.
  - cbn. constructor.
  - reflexivity.
  - cbn. left. reflexivity.
  - cbn. left. reflexivity.
  - cbn. left. reflexivity.
Defined.

(** C2, as stated, fails: the commit mapping appends the boxes to whatever
    the selected-columns setter was given.  From a model whose hints are
    pairwise distinct, a selected-columns change that carries a Time-hinted
    column commits two Time-hinted columns. *)
Lemma selected_columns_setter_duplicates_hint :
  let committed :=
    [Samples.col "host" None; Samples.col "ts2" (Some Time);
     Samples.col "ts" (Some Time); Samples.col "level" (Some LogLevel);
     Samples.col "body" (Some LogMessage)] in
  hintsUnique (orElse (QB.columns Samples.logsOptions) [])
  /\ QB.columns
       (edit Samples.logsOptions
          [onOptionChange KselectedColumns
             [Samples.col "host" None; Samples.col "ts2" (Some Time)]])
     = Some committed
  /\ hintsOf committed = [Time; Time; LogLevel; LogMessage]
  /\ ~ hintsUnique committed.
Proof.
  cbv zeta. split; [| split; [| split]].
  - cbn. repeat constructor; simpl; intuition discriminate.
  - reflexivity.
  - reflexivity.
  - unfold hintsUnique. cbn. intro H. inversion H as [| x l Hnin _]; subst.
    apply Hnin. left. reflexivity.
Qed.

Lemma hintsOf_filter_NoDup (p : SelectedColumn -> bool) (cs : list SelectedColumn) :
  NoDup (hintsOf cs) -> NoDup (hintsOf (filter p cs)).
Proof.
  induction cs as [| c cs IH]; simpl; intro Hnd.
  - constructor.
  - assert (Hsub : forall h, In h (hintsOf (filter p cs)) -> In h (hintsOf cs)).
    { intros h Hin. apply in_hintsOf in Hin as [c' [Hc' Hh]].
      apply in_hintsOf. exists c'. apply filter_In in Hc'. tauto. }
    destruct (hint c) as [h |] eqn:E.
    + inversion Hnd as [| x l Hnin Hnd']; subst.
      destruct (p c); simpl; [rewrite E; constructor |]; auto.
    + destruct (p c); simpl; [rewrite E |]; auto.
Qed.

(** A transition that writes no column field keeps hints apart whenever the
    model did. *)
Lemma logs_commit_without_column_write
  (o : QueryBuilderOptions) (q : list Update) :
  q <> [] ->
  unmentioned KselectedColumns q -> unmentioned KtimeColumn q ->
  unmentioned KlogLevelColumn q -> unmentioned KmessageColumn q ->
  hintsUnique (orElse (QB.columns o) []) ->
  exists cs : list SelectedColumn,
    QB.columns (edit o q) = Some cs /\ hintsUnique cs.
Proof.
  intros Hq Hs Ht Hl Hm Huniq.
  destruct (builderState_boxes o) as [Bsel [Bt [Bl Bm]]].
  pose proof (logs_merged_unmentioned KselectedColumns (builderState o) q Hs) as Es.
  pose proof (logs_merged_unmentioned KtimeColumn (builderState o) q Ht) as Et.
  pose proof (logs_merged_unmentioned KlogLevelColumn (builderState o) q Hl) as El.
  pose proof (logs_merged_unmentioned KmessageColumn (builderState o) q Hm) as Em.
  cbn in Es, Et, El, Em.
  exists (nextColumns (mergeQueue (builderState o) q)). split.
  - rewrite (edit_nonempty o q Hq). reflexivity.
  - apply nextColumns_hintsUnique; rewrite ?Es, ?Et, ?El, ?Em; try assumption.
    cbn. destruct (QB.columns o) as [cs |]; cbn in *.
    + apply hintsOf_filter_NoDup. exact Huniq.
    + constructor.
Qed.

(** *** Decomposing and recommitting *)

Lemma selectedColumns_builderState (o : QueryBuilderOptions) :
  selectedColumns (builderState o) = filter hasNoBox (orElse (QB.columns o) []).
Proof.
  unfold builderState. cbn. destruct (QB.columns o); reflexivity.
Qed.

(** What the round trip commits, on any model: the columns without a box,
    then the first carrier of each boxed hint. *)
Lemma recommit_columns (o : QueryBuilderOptions) :
  QB.columns (recommit o) =
  Some (filter hasNoBox (orElse (QB.columns o) [])
        ++ pushIfDefined (find (hintIs Time) (orElse (QB.columns o) []))
        ++ pushIfDefined (find (hintIs LogLevel) (orElse (QB.columns o) []))
        ++ pushIfDefined (find (hintIs LogMessage) (orElse (QB.columns o) []))).
Proof.
  unfold recommit. cbn [OptionsState.reducer onChange].
  unfold OptionsState.mergeOptions. cbn [QB.columns nextOptions Partial.columns
                                          OptionsState.overlay].
  unfold nextColumns. rewrite selectedColumns_builderState. reflexivity.
Qed.

(** Every column is in exactly one of the four groups of the commit. *)
Lemma columns_by_box (cs : list SelectedColumn) :
  Permutation cs
    (filter hasNoBox cs ++ filter (hintIs Time) cs
     ++ filter (hintIs LogLevel) cs ++ filter (hintIs LogMessage) cs).
Proof.
  induction cs as [| c cs IH]; [constructor |].
  cbn [filter].
  assert (HT : hintIs Time c =
               match hint c with Some Time => true | _ => false end)
    by (unfold hintIs; destruct (hint c) as [[] |]; reflexivity).
  assert (HL : hintIs LogLevel c =
               match hint c with Some LogLevel => true | _ => false end)
    by (unfold hintIs; destruct (hint c) as [[] |]; reflexivity).
  assert (HM : hintIs LogMessage c =
               match hint c with Some LogMessage => true | _ => false end)
    by (unfold hintIs; destruct (hint c) as [[] |]; reflexivity).
  assert (HB : hasNoBox c =
               negb (hintIs Time c) && negb (hintIs LogLevel c)
               && negb (hintIs LogMessage c)) by reflexivity.
  rewrite HB, HT, HL, HM.
  destruct (hint c) as [[| | | tag] |]; cbn [negb andb app].
  - apply Permutation_cons_app. exact IH.
  - rewrite app_assoc. apply Permutation_cons_app.
    rewrite <- app_assoc. exact IH.
  - rewrite 2!app_assoc. apply Permutation_cons_app.
    rewrite <- 2!app_assoc. exact IH.
  - constructor. exact IH.
  - constructor. exact IH.
Qed.

(** C10, as the view behaves.  On a model in which each of the hints Time,
    LogLevel and LogMessage is carried by at most one column, decomposing
    into the editable state and recommitting at once commits the same
    columns, those without a box first, then the Time, the LogLevel and the
    LogMessage column; [filters], [orderBy] and [limit] are committed as the
    view reads them, a missing one as the empty sequence or as 0. *)
Theorem recommit_keeps_columns (o : QueryBuilderOptions) :
  let cs := orElse (QB.columns o) [] in
  atMostOne Time cs -> atMostOne LogLevel cs -> atMostOne LogMessage cs ->
  QB.columns (recommit o) =
    Some (filter hasNoBox cs ++ filter (hintIs Time) cs
          ++ filter (hintIs LogLevel) cs ++ filter (hintIs LogMessage) cs)
  /\ Permutation cs (orElse (QB.columns (recommit o)) [])
  /\ QB.filters (recommit o) = Some (orElse (QB.filters o) [])
  /\ QB.orderBy (recommit o) = Some (orElse (QB.orderBy o) [])
  /\ QB.limit (recommit o) = Some (numberOrZero (QB.limit o)).
Proof.
  intros cs Ht Hl Hm.
  assert (Hcols : QB.columns (recommit o) =
    Some (filter hasNoBox cs ++ filter (hintIs Time) cs
          ++ filter (hintIs LogLevel) cs ++ filter (hintIs LogMessage) cs)).
  { rewrite recommit_columns. fold cs.
    rewrite (find_is_filter (hintIs Time) cs Ht).
    rewrite (find_is_filter (hintIs LogLevel) cs Hl).
    rewrite (find_is_filter (hintIs LogMessage) cs Hm).
    reflexivity. }
  split; [exact Hcols |]. split; [| repeat split].
  rewrite Hcols. cbn [orElse]. apply columns_by_box.
Qed.

(** The round trip on the sample logs query moves the boxed columns behind
    the others and loses none. *)
Lemma recommit_keeps_columns_witness :
  QB.columns (recommit Samples.logsOptions) =
    Some [Samples.col "host" None; Samples.col "ts" (Some Time);
          Samples.col "level" (Some LogLevel);
          Samples.col "body" (Some LogMessage)]
  /\ QB.limit (recommit Samples.logsOptions) = Some (Num 100).
Proof.
  destruct (recommit_keeps_columns Samples.logsOptions) as [Hc [_ [_ [_ Hl]]]].
  - unfold atMostOne. cbn. lia.
  - unfold atMostOne. cbn. lia.
  - unfold atMostOne. cbn. lia.
  - split; [exact Hc | exact Hl].
Defined.

(** C10, as stated, fails on a model in which two columns carry the Time
    hint: the time box holds one column, the filter drops both from the
    selected columns, and the recommit keeps the first only. *)
Lemma recommit_drops_second_time_column :
  QB.columns Samples.twoTimeOptions =
    Some [Samples.col "ts" (Some Time); Samples.col "ts2" (Some Time)]
  /\ QB.columns (recommit Samples.twoTimeOptions) =
    Some [Samples.col "ts" (Some Time)]
  /\ ~ In (Samples.col "ts2" (Some Time))
         (orElse (QB.columns (recommit Samples.twoTimeOptions)) []).
Proof.
  split; [reflexivity |]. split; [reflexivity |].
  cbn. intros [H | []]. discriminate.
Qed.

End LogsFacts.

(** ** The limit *)

Module LimitFacts.

Lemma numberOrZero_negative (z : Z) :
  z < 0 -> numberOrZero (Some (Num z)) = Num z.
Proof.
  intro Hz. cbn. destruct (z =? 0) eqn:E; [| reflexivity].
  apply Z.eqb_eq in E. lia.
Qed.




End LimitFacts.

(** ** The default rules of the Logs view *)

Module LogsHooksFacts.

Import LogsHooks HintFacts.

(** *** Schema-convention column rule *)

Lemma sameDeps_false (e0 : bool) (v0 : string) (enabled : bool) (version : string) :
  sameDeps (Some (e0, v0)) enabled version = false <->
  e0 <> enabled \/ v0 <> version.
Proof.
  unfold sameDeps. rewrite andb_false_iff. rewrite eqb_false_iff.
  rewrite String.eqb_neq. tauto.
Qed.

(** The rule skips a render exactly when flag and version are the ones it
    last ran with. *)
Lemma sameDeps_true (ref : OtelRef) (enabled : bool) (version : string) :
  sameDeps ref enabled version = true <-> ref = Some (enabled, version).
Proof.
  unfold sameDeps. destruct ref as [[e v] |].
  - rewrite andb_true_iff, eqb_true_iff, String.eqb_eq.
    split; [intros [-> ->]; reflexivity | intro H; inversion H; auto].
  - split; discriminate.
Qed.

Lemma sameDeps_refl (enabled : bool) (version : string) :
  sameDeps (Some (enabled, version)) enabled version = true.
Proof.
  unfold sameDeps. rewrite eqb_reflx, String.eqb_refl. reflexivity.
Qed.

Lemma replaceByHint_hinted (n : string) (h : ColumnHint) (cs : list SelectedColumn) :
  OptionsState.replaceByHint (hinted n h) cs =
  filter (fun c => negb (hintIs h c)) cs ++ [hinted n h].
Proof. reflexivity. Qed.

Lemma filter_filter {A : Type} (p r : A -> bool) (l : list A) :
  filter p (filter r l) = filter (fun x => r x && p x) l.
Proof.
  induction l as [| x l IH]; simpl; [reflexivity |].
  destruct (r x); simpl; [destruct (p x) |]; rewrite IH; reflexivity.
Qed.

Lemma filter_none {A : Type} (p : A -> bool) (l : list A) :
  (forall x, In x l -> p x = false) -> filter p l = [].
Proof.
  induction l as [| x l IH]; simpl; intro H; [reflexivity |].
  rewrite (H x (or_introl eq_refl)). apply IH. auto.
Qed.

Lemma filter_all {A : Type} (p : A -> bool) (l : list A) :
  (forall x, In x l -> p x = true) -> filter p l = l.
Proof.
  induction l as [| x l IH]; simpl; intro H; [reflexivity |].
  rewrite (H x (or_introl eq_refl)). f_equal. apply IH. auto.
Qed.

(** Replacing the three boxed columns one after the other leaves the
    columns without a box, followed by the three new ones. *)
Lemma replace_three (t l m : string) (cs : list SelectedColumn) :
  OptionsState.replaceByHint (hinted m LogMessage)
    (OptionsState.replaceByHint (hinted l LogLevel)
       (OptionsState.replaceByHint (hinted t Time) cs)) =
  filter Logs.hasNoBox cs
  ++ [hinted t Time; hinted l LogLevel; hinted m LogMessage].
Proof.
  rewrite !replaceByHint_hinted.
  rewrite !filter_app. cbn [filter hinted hintIs hint hint_eqb negb].
  cbn. rewrite !filter_filter. rewrite <- !app_assoc. cbn [app].
  f_equal. apply filter_ext. intro c. unfold Logs.hasNoBox.
  rewrite andb_assoc. reflexivity.
Qed.

Lemma find_head_filter {A : Type} (p : A -> bool) (l : list A) :
  find p l = match filter p l with x :: _ => Some x | [] => None end.
Proof.
  induction l as [| x l IH]; simpl; [reflexivity |].
  destruct (p x); [reflexivity | exact IH].
Qed.

Lemma unboxed_carry_no_box (h : ColumnHint) (cs : list SelectedColumn) :
  h = Time \/ h = LogLevel \/ h = LogMessage ->
  filter (hintIs h) (filter Logs.hasNoBox cs) = [].
Proof.
  intro Hh. apply filter_none. intros c Hc.
  apply filter_In in Hc as [_ Hc]. unfold Logs.hasNoBox in Hc.
  rewrite !andb_true_iff, !negb_true_iff in Hc.
  destruct Hh as [-> | [-> | ->]]; tauto.
Qed.

Section OtelColumns.

Variable logColumnMap : string -> option OtelLogColumns.

Lemma otel_columns_after
  (o : QueryBuilderOptions) (version : string) (m : OtelLogColumns) :
  logColumnMap version = Some m ->
  QB.columns
    (OptionsState.dispatchAll o (otelActions logColumnMap true version)) =
  Some (filter Logs.hasNoBox (orElse (QB.columns o) [])
        ++ [hinted (timeName m) Time; hinted (logLevelName m) LogLevel;
            hinted (logMessageName m) LogMessage]).
Proof.
  intro Hm. unfold otelActions. rewrite Hm.
  cbn [OptionsState.dispatchAll fold_left OptionsState.reducer
       OptionsState.withColumns QB.columns orElse].
  rewrite replace_three. reflexivity.
Qed.


End OtelColumns.


(** *** Default time column rule *)

Section DefaultTimeColumn.

Variable columnFilterDateTime : TableColumn -> bool.
Variable isDefaultTimeName : string -> bool.

Local Abbreviation useTime :=
  (useDefaultTimeColumn columnFilterDateTime isDefaultTimeName).
Local Abbreviation renders :=
  (timeRenders columnFilterDateTime isDefaultTimeName).
Local Abbreviation candidate :=
  (isCandidate columnFilterDateTime isDefaultTimeName).

(** A selection that is no longer fresh proposes nothing, whatever the
    render shows. *)
Lemma time_step_spent (ref : TimeRef) (i : TimeInput) :
  lastTable ref = table i -> fresh ref = false ->
  useTime ref i = ({| lastTable := table i; fresh := false |}, []).
Proof.
  intros Ht Hf. unfold useDefaultTimeColumn.
  rewrite Hf, Ht, String.eqb_refl. cbn [negb orb].
  destruct (timeColumn i); [reflexivity |].
  destruct (otelEnabled i); reflexivity.
Qed.

Lemma time_renders_spent (table0 : string) (inputs : list TimeInput) :
  forall ref : TimeRef,
    lastTable ref = table0 -> fresh ref = false ->
    Forall (fun j => table j = table0) inputs ->
    renders ref inputs = map (fun _ => []) inputs.
Proof.
  induction inputs as [| i inputs IH]; intros ref Ht Hf Hall.
  - reflexivity.
  - inversion_clear Hall as [| ? ? Hi Hrest].
    cbn [timeRenders map].
    rewrite (time_step_spent ref i) by congruence.
    f_equal. apply IH; [exact Hi | reflexivity | exact Hrest].
Qed.

(** A fresh selection waits while the flag is enabled or the catalog shows
    no candidate. *)
Lemma time_step_waiting (ref : TimeRef) (i : TimeInput) :
  lastTable ref = table i -> fresh ref = true -> timeColumn i = None ->
  otelEnabled i = true \/ find candidate (allColumns i) = None ->
  useTime ref i = ({| lastTable := table i; fresh := true |}, []).
Proof.
  intros Ht Hf Hnone Hwait. unfold useDefaultTimeColumn.
  rewrite Hf, Hnone. cbn [orb].
  destruct (otelEnabled i); [reflexivity |].
  destruct Hwait as [Ho | Hc]; [discriminate | rewrite Hc; reflexivity].
Qed.

Lemma time_step_fires (ref : TimeRef) (i : TimeInput) (c : TableColumn) :
  fresh ref = true -> timeColumn i = None -> otelEnabled i = false ->
  find candidate (allColumns i) = Some c ->
  useTime ref i =
  ({| lastTable := table i; fresh := false |},
   [setColumnByHint (hinted (columnName c) Time)]).
Proof.
  intros Hf Hnone Ho Hc. unfold useDefaultTimeColumn.
  rewrite Hf, Hnone, Ho, Hc. reflexivity.
Qed.

Lemma time_renders_waiting (table0 : string) (waiting rest : list TimeInput) :
  Forall (fun j => table j = table0 /\ timeColumn j = None
                   /\ (otelEnabled j = true
                       \/ find candidate (allColumns j) = None)) waiting ->
  renders {| lastTable := table0; fresh := true |} (waiting ++ rest) =
  map (fun _ => []) waiting
  ++ renders {| lastTable := table0; fresh := true |} rest.
Proof.
  induction 1 as [| j waiting [Hj [Hnone Hwait]] _ IH].
  - reflexivity.
  - cbn [app timeRenders map].
    rewrite (time_step_waiting _ j) by (cbn; auto).
    rewrite Hj. f_equal. exact IH.
Qed.

(** Every render keeps the table it ran with, and a render that dispatches
    dispatches one action and leaves the selection spent. *)
Lemma time_step_shape (ref : TimeRef) (i : TimeInput) :
  lastTable (fst (useTime ref i)) = table i
  /\ (snd (useTime ref i) = []
      \/ (fresh (fst (useTime ref i)) = false
          /\ exists a, snd (useTime ref i) = [a])).
Proof.
  unfold useDefaultTimeColumn.
  destruct (timeColumn i); [cbn; auto |].
  destruct (otelEnabled i); [cbn; auto |].
  destruct (fresh ref || negb (String.eqb (table i) (lastTable ref)));
    [| cbn; auto].
  destruct (find candidate (allColumns i)); cbn; eauto.
Qed.

Lemma time_renders_at_most_once (table0 : string) (inputs : list TimeInput) :
  forall ref : TimeRef,
    Forall (fun j => table j = table0) inputs ->
    (proposals (renders ref inputs) <= 1)%nat.
Proof.
  unfold proposals.
  induction inputs as [| i inputs IH]; intros ref Hall.
  - cbn. lia.
  - inversion_clear Hall as [| ? ? Hi Hrest].
    cbn [timeRenders].
    destruct (time_step_shape ref i) as [Ht Hout].
    destruct (useTime ref i) as [ref' out]. cbn [fst snd] in *.
    cbn [List.concat]. rewrite length_app.
    destruct Hout as [-> | [Hf [a ->]]].
    + cbn. apply IH. exact Hrest.
    + rewrite Hi in Ht.
      rewrite (time_renders_spent table0 inputs ref' Ht Hf Hrest).
      clear. induction inputs; cbn in *; lia.
Qed.

Lemma find_noMatch (catalog : list TableColumn) :
  noMatch columnFilterDateTime isDefaultTimeName catalog ->
  find candidate catalog = None.
Proof.
  induction catalog as [| d catalog IH]; intro Hno; [reflexivity |].
  cbn [find]. unfold isCandidate at 1.
  destruct (Hno d (or_introl eq_refl)) as [-> | ->];
    rewrite ?andb_false_r; cbn [andb];
    apply IH; intros d' Hd'; apply Hno; right; exact Hd'.
Qed.

(** The scan takes the first match in catalog order. *)
Lemma find_first_match (before after : list TableColumn) (c : TableColumn) :
  noMatch columnFilterDateTime isDefaultTimeName before ->
  columnFilterDateTime c = true -> isDefaultTimeName (columnName c) = true ->
  find candidate (before ++ c :: after) = Some c.
Proof.
  intros Hno Hty Hname.
  induction before as [| d before IH]; cbn [app find].
  - unfold isCandidate. rewrite Hty, Hname. reflexivity.
  - unfold isCandidate at 1.
    destruct (Hno d (or_introl eq_refl)) as [-> | ->];
      rewrite ?andb_false_r; cbn [andb];
      apply IH; intros d' Hd'; apply Hno; right; exact Hd'.
Qed.

(** C8.  From the fresh selection of a newly created query on, with the
    convention flag disabled and no Time column set, the rule proposes the
    first catalog column of a timestamp-like type whose name matches the
    default-time-column convention, as the Time-hinted column of that name,
    on the first render whose catalog has one; it proposes nothing before,
    and nothing on any later render of the same table selection, a render
    after the user cleared the Time column included.  On every session of
    one table selection, whatever state the rule starts in, it proposes at
    most once, and a selection that is no longer fresh proposes nothing. *)
Theorem default_time_column_proposed_once
  (table0 : string) (waiting : list TimeInput) (i : TimeInput)
  (before : list TableColumn) (c : TableColumn) (after : list TableColumn)
  (later : list TimeInput) :
  Forall (fun j => table j = table0 /\ timeColumn j = None
                   /\ (otelEnabled j = true
                       \/ noMatch columnFilterDateTime isDefaultTimeName
                            (allColumns j))) waiting ->
  table i = table0 -> timeColumn i = None -> otelEnabled i = false ->
  allColumns i = before ++ c :: after ->
  noMatch columnFilterDateTime isDefaultTimeName before ->
  columnFilterDateTime c = true ->
  isDefaultTimeName (columnName c) = true ->
  Forall (fun j => table j = table0) later ->
  renders (freshSelection table0) (waiting ++ i :: later) =
    map (fun _ => []) waiting
    ++ [setColumnByHint
          {| name := columnName c; alias := None; hint := Some Time |}]
       :: map (fun _ => []) later
  /\ (forall (ref : TimeRef) (inputs : list TimeInput),
       Forall (fun j => table j = table0) inputs ->
       (proposals (renders ref inputs) <= 1)%nat)
  /\ (forall (ref : TimeRef) (inputs : list TimeInput),
       lastTable ref = table0 -> fresh ref = false ->
       Forall (fun j => table j = table0) inputs ->
       renders ref inputs = map (fun _ => []) inputs).
Proof.
  intros Hwait Hi Hnone Ho Hcat Hbefore Hty Hname Hlater.
  assert (Hc : find candidate (allColumns i) = Some c)
    by (rewrite Hcat; apply find_first_match; assumption).
  assert (Hwait' :
            Forall (fun j => table j = table0 /\ timeColumn j = None
                             /\ (otelEnabled j = true
                                 \/ find candidate (allColumns j) = None))
              waiting).
  { apply (Forall_impl _ (P := fun j => table j = table0
                                /\ timeColumn j = None
                                /\ (otelEnabled j = true
                                    \/ noMatch columnFilterDateTime
                                         isDefaultTimeName (allColumns j))));
      [| exact Hwait].
    intros j [H1 [H2 [H3 | H3]]]; repeat split; auto.
    right. apply find_noMatch. exact H3. }
  split; [| split].
  - unfold freshSelection.
    rewrite (time_renders_waiting table0 waiting _ Hwait').
    f_equal. cbn [timeRenders].
    rewrite (time_step_fires _ i c) by (cbn; auto).
    f_equal. apply (time_renders_spent table0); cbn; auto.
  - intros ref inputs Hall.
    apply (time_renders_at_most_once table0). exact Hall.
  - intros ref inputs Ht Hf Hall.
    apply (time_renders_spent table0); assumption.
Qed.

End DefaultTimeColumn.

(** A new query on the table [logs]: nothing while the catalog loads, the
    column [timestamp], the first match after the string column [msg], once
    the catalog is there, nothing after the proposal, also not when the user
    has cleared the Time column again. *)
Lemma default_time_column_proposed_once_witness :
  timeRenders Samples.isDateTime Samples.isTimestampName
    (freshSelection "logs")
    [Samples.renderLoading; Samples.renderLoaded;
     Samples.renderProposed; Samples.renderCleared]
  = [[];
     [setColumnByHint
        {| name := "timestamp"; alias := None; hint := Some Time |}];
     []; []].
Proof.
  apply (default_time_column_proposed_once
           Samples.isDateTime Samples.isTimestampName "logs"
           [Samples.renderLoading] Samples.renderLoaded
           [{| columnName := "msg"; columnType := "String" |}]
           {| columnName := "timestamp"; columnType := "DateTime" |}
           []
           [Samples.renderProposed; Samples.renderCleared]).
  - constructor; [| constructor].
    split; [reflexivity |]. split; [reflexivity |].
    right. intros d [].
  - reflexivity.
  - reflexivity.
  - reflexivity.
  - reflexivity.
  - intros d [<- | []]. left. reflexivity.
  - reflexivity.
  - reflexivity.
  - repeat constructor.
Defined.

(** In the view: once the proposal is reduced the time box shows the
    proposed column, and after the user has emptied the box the next render
    shows none, which is a render the rule stays silent on. *)
Lemma proposed_time_column_shows (o : QueryBuilderOptions) (n : string) :
  Logs.timeColumn
    (Logs.builderState
       (OptionsState.reducer o (setColumnByHint (hinted n Time))))
  = Some (hinted n Time).
Proof.
  cbn [Logs.builderState Logs.timeColumn]. unfold getColumnByHint.
  cbn [OptionsState.reducer OptionsState.withColumns QB.columns orElse].
  rewrite replaceByHint_hinted, find_head_filter, filter_app, filter_filter.
  rewrite filter_none; [reflexivity |].
  intros c _. destruct (hintIs Time c); reflexivity.
Qed.

Lemma box_of_other_hint (h : ColumnHint) (cs : list SelectedColumn) :
  h <> Time ->
  filter (hintIs Time) (pushIfDefined (find (hintIs h) cs)) = [].
Proof.
  intro Hne. destruct (find (hintIs h) cs) as [c |] eqn:E; [| reflexivity].
  apply find_some in E as [_ E]. apply hintIs_true in E.
  cbn. assert (Hc : hintIs Time c = false)
    by (apply hintIs_false; congruence).
  rewrite Hc. reflexivity.
Qed.

Lemma cleared_time_column_stays_cleared (o : QueryBuilderOptions) :
  Logs.timeColumn
    (Logs.builderState
       (Logs.edit o [Logs.onOptionChange Logs.KtimeColumn None]))
  = None.
Proof.
  rewrite LogsFacts.edit_nonempty by discriminate.
  cbn [Logs.builderState Logs.timeColumn]. unfold getColumnByHint.
  cbn [OptionsState.mergeOptions QB.columns Logs.nextOptions Partial.columns
       OptionsState.overlay orElse].
  unfold Logs.nextColumns. cbn.
  rewrite find_head_filter, !filter_app.
  change (orElse (option_map (filter Logs.hasNoBox) (QB.columns o)) [])
    with (Logs.selectedColumns (Logs.builderState o)).
  rewrite LogsFacts.selectedColumns_builderState.
  rewrite unboxed_carry_no_box by auto.
  unfold getColumnByHint.
  rewrite !box_of_other_hint by discriminate. reflexivity.
Qed.

(** *** Default filters and ordering rule *)

Section DefaultFilters.

Variable timeRangeOperator : string.
Variable timeRangeOperands : list string.

Local Abbreviation useFilters :=
  (useDefaultFilters timeRangeOperator timeRangeOperands).
Local Abbreviation renders :=
  (filterRenders timeRangeOperator timeRangeOperands).
Local Abbreviation payload :=
  (defaultFiltersPayload timeRangeOperator timeRangeOperands).

(** Once applied, the rule dispatches nothing, whatever the render shows. *)
Lemma filters_renders_applied (inputs : list FiltersInput) :
  renders true inputs = map (fun _ => []) inputs.
Proof.
  induction inputs as [| i inputs IH]; [reflexivity |].
  cbn [filterRenders map useDefaultFilters]. f_equal. exact IH.
Qed.

Lemma filters_step_waiting (j : FiltersInput) :
  notYet j -> useFilters false j = (false, []).
Proof.
  unfold useDefaultFilters.
  intros [Hnone | Hnonempty].
  - rewrite Hnone. reflexivity.
  - destruct (filtersTimeColumn j); [| reflexivity].
    destruct (filters j), (orderBy j); cbn; try reflexivity.
    destruct Hnonempty; congruence.
Qed.

Lemma filters_renders_waiting (waiting rest : list FiltersInput) :
  Forall notYet waiting ->
  renders false (waiting ++ rest) =
  map (fun _ => []) waiting ++ renders false rest.
Proof.
  induction 1 as [| j waiting Hj _ IH]; [reflexivity |].
  cbn [app filterRenders map].
  rewrite (filters_step_waiting j Hj). f_equal. exact IH.
Qed.

Lemma filters_step_shape (applied : bool) (i : FiltersInput) :
  snd (useFilters applied i) = []
  \/ (fst (useFilters applied i) = true
      /\ exists a, snd (useFilters applied i) = [a]).
Proof.
  unfold useDefaultFilters. destruct applied; [cbn; auto |].
  destruct (filtersTimeColumn i); [| cbn; auto].
  destruct (isEmpty (filters i) && isEmpty (orderBy i)); cbn; eauto.
Qed.

Lemma filters_renders_at_most_once (inputs : list FiltersInput) :
  forall applied : bool, (proposals (renders applied inputs) <= 1)%nat.
Proof.
  unfold proposals.
  induction inputs as [| i inputs IH]; intro applied.
  - cbn. lia.
  - cbn [filterRenders].
    destruct (filters_step_shape applied i) as [Hout | [Hap [a Hout]]];
      destruct (useFilters applied i) as [applied' out]; cbn [fst snd] in *;
      subst; cbn [List.concat]; rewrite length_app.
    + cbn. apply IH.
    + rewrite filters_renders_applied.
      clear. induction inputs; cbn in *; lia.
Qed.

(** C9.  On the first render that shows a Time column while filters and
    ordering are both empty, the rule proposes exactly one filter, the
    default time range on that column, and exactly one ordering, that
    column descending; before, while there is no Time column or a filter or
    ordering exists, it proposes nothing; after the proposal it proposes
    nothing on any later render, whatever the user has added or cleared.
    Over any session it proposes at most once. *)
Theorem default_filters_proposed_once
  (waiting : list FiltersInput) (i : FiltersInput) (tc : SelectedColumn)
  (later : list FiltersInput) (o : QueryBuilderOptions) :
  Forall notYet waiting ->
  filtersTimeColumn i = Some tc -> filters i = [] -> orderBy i = [] ->
  renders false (waiting ++ i :: later) =
    map (fun _ => []) waiting
    ++ [setOptions (payload tc)] :: map (fun _ => []) later
  /\ Partial.filters (payload tc) =
       Some [{| key := name tc; operator := timeRangeOperator;
                operands := timeRangeOperands; condition := AND |}]
  /\ Partial.orderBy (payload tc) =
       Some [{| orderName := name tc; dir := DESC |}]
  /\ QB.filters (OptionsState.reducer o (setOptions (payload tc)))
     = Partial.filters (payload tc)
  /\ QB.orderBy (OptionsState.reducer o (setOptions (payload tc)))
     = Partial.orderBy (payload tc)
  /\ QB.columns (OptionsState.reducer o (setOptions (payload tc)))
     = QB.columns o
  /\ forall (applied : bool) (inputs : list FiltersInput),
       (proposals (renders applied inputs) <= 1)%nat.
Proof.
  intros Hwait Htc Hf Ho.
  split; [| repeat split].
  - rewrite (filters_renders_waiting waiting _ Hwait). f_equal.
    cbn [filterRenders]. unfold useDefaultFilters.
    rewrite Htc, Hf, Ho. cbn. f_equal. apply filters_renders_applied.
  - intros applied inputs. apply filters_renders_at_most_once.
Qed.

End DefaultFilters.

(** The user selects [ts] as the Time column of an empty query: the rule
    proposes the filter and the ordering on [ts] once; it stays silent when
    the defaults are in place and when the user has cleared both. *)
Lemma default_filters_proposed_once_witness :
  filterRenders "WITH IN DASHBOARD TIME RANGE" ["1 hour"] false
    [Samples.filtersRender None [] [];
     Samples.filtersRender (Some (hinted "ts" Time)) [] [];
     Samples.filtersRender (Some (hinted "ts" Time))
       [{| key := "ts"; operator := "WITH IN DASHBOARD TIME RANGE";
           operands := ["1 hour"]; condition := AND |}]
       [{| orderName := "ts"; dir := DESC |}];
     Samples.filtersRender (Some (hinted "ts" Time)) [] []]
  = [[];
     [setOptions
        (defaultFiltersPayload "WITH IN DASHBOARD TIME RANGE" ["1 hour"]
           (hinted "ts" Time))];
     []; []].
Proof.
  apply (default_filters_proposed_once
           "WITH IN DASHBOARD TIME RANGE" ["1 hour"]
           [Samples.filtersRender None [] []]
           (Samples.filtersRender (Some (hinted "ts" Time)) [] [])
           (hinted "ts" Time)
           [Samples.filtersRender (Some (hinted "ts" Time))
              [{| key := "ts"; operator := "WITH IN DASHBOARD TIME RANGE";
                  operands := ["1 hour"]; condition := AND |}]
              [{| orderName := "ts"; dir := DESC |}];
            Samples.filtersRender (Some (hinted "ts" Time)) [] []]
           Samples.emptyOptions).
  - constructor; [| constructor]. left. reflexivity.
  - reflexivity.
  - reflexivity.
  - reflexivity.
Defined.

End LogsHooksFacts.

(** ** What the owner holds after a commit *)

Module CommitFacts.

Import Commit.

(** The reducer as modelled is one owner that holds what a payload carried. *)
Lemma mergeOptions_carries (o : QueryBuilderOptions) (p : Partial.t) :
  carries (OptionsState.mergeOptions o p) p.
Proof.
  unfold carries, holds, OptionsState.mergeOptions. cbn.
  repeat split;
    match goal with
    | |- match ?x with _ => _ end => destruct x; reflexivity
    end.
Qed.

(** Reading back a committed limit: [NaN] and [0] read as [0], every other
    number as itself, and a limit that was read is read back as it is. *)
Lemma numberOrZero_number (n : number) :
  n <> NaN -> numberOrZero (Some n) = n.
Proof.
  intro Hn. destruct n as [z |]; [| congruence].
  cbn. destruct (z =? 0) eqn:E; [| reflexivity].
  apply Z.eqb_eq in E. congruence.
Qed.

Lemma numberOrZero_idem (x : option number) :
  numberOrZero (Some (numberOrZero x)) = numberOrZero x.
Proof.
  apply numberOrZero_number.
  destruct x as [[z |] |]; cbn; try discriminate.
  destruct (z =? 0); discriminate.
Qed.

End CommitFacts.

(** ** The Table view: mount, read back, rendered editors *)

Module TableViewFacts.

Import Table.

(** X1.  A commit of the editable state as read at mount, in the mode the
    view mounts in, never loses an aggregate or a column of the loaded
    model.  The group-by is committed as loaded exactly when the model has
    an aggregate; a model without aggregates is committed in List mode with
    an empty group-by, whatever mode and group-by it was loaded with. *)
Theorem mount_commit_keeps_aggregates (o : QueryBuilderOptions) :
  let p := nextOptions (initialAggregateMode o) (builderState o) in
  Partial.aggregates p = Some (orElse (QB.aggregates o) [])
  /\ Partial.columns p = Some (orElse (QB.columns o) [])
  /\ (orElse (QB.aggregates o) [] <> [] ->
      Partial.groupBy p = Some (orElse (QB.groupBy o) [])
      /\ Partial.mode p = Some BuilderMode.Aggregate)
  /\ (orElse (QB.aggregates o) [] = [] ->
      Partial.groupBy p = Some []
      /\ Partial.mode p = Some BuilderMode.List).
Proof.
  cbv zeta. unfold initialAggregateMode, nextOptions, builderState.
  cbn [Partial.aggregates Partial.columns Partial.groupBy Partial.mode
       aggregates groupBy selectedColumns].
  destruct (QB.aggregates o) as [[| a l] |]; cbn [option_map orElse].
  - cbn. repeat split; congruence.
  - rewrite TableFacts.of_nat_length_pos.
    repeat split; intros; congruence.
  - cbn. repeat split; congruence.
Qed.

(** A query saved in Aggregate mode with a group-by and no aggregate: the
    first commit after mount drops the group-by and commits List mode. *)
Lemma mount_commit_keeps_aggregates_witness :
  let p :=
    nextOptions (initialAggregateMode Samples.groupedOptions)
      (builderState Samples.groupedOptions) in
  QB.groupBy Samples.groupedOptions = Some ["service"]
  /\ QB.mode Samples.groupedOptions = Some BuilderMode.Aggregate
  /\ Partial.groupBy p = Some []
  /\ Partial.mode p = Some BuilderMode.List.
Proof.
  cbv zeta.
  destruct (mount_commit_keeps_aggregates Samples.groupedOptions)
    as [_ [_ [_ H]]].
  split; [reflexivity |]. split; [reflexivity |].
  apply H. reflexivity.
Defined.

(** X2.  Committing and reading back.  When the view is next rendered with a
    model that holds what the mapping function committed, the editable state
    it reads is the committed one in Aggregate mode, and the committed one
    with [aggregates] and [groupBy] emptied in List mode, in both cases with
    the limit read through [|| 0]: a committed [NaN] reads back as [0],
    every other limit, zero and negative ones included, as itself. *)
Theorem table_commit_reads_back
  (isAggregateMode : bool) (next : TableQueryBuilderState)
  (o' : QueryBuilderOptions) :
  Commit.carries o' (nextOptions isAggregateMode next) ->
  builderState o' =
    setField Klimit (numberOrZero (Some (limit next)))
      (if isAggregateMode then next else withoutAggregates next)
  /\ (limit next <> NaN ->
      builderState o' =
      if isAggregateMode then next else withoutAggregates next)
  /\ (limit next = NaN -> limit (builderState o') = Num 0).
Proof.
  unfold Commit.carries, Commit.holds, nextOptions.
  cbn [Partial.mode Partial.columns Partial.aggregates Partial.groupBy
       Partial.filters Partial.orderBy Partial.limit].
  intros [_ [Hc [Ha [Hg [Hf [Ho Hl]]]]]].
  assert (E : builderState o' =
              setField Klimit (numberOrZero (Some (limit next)))
                (if isAggregateMode then next else withoutAggregates next)).
  { unfold builderState. rewrite Hc, Ha, Hg, Hf, Ho, Hl.
    cbn [orElse]. destruct next, isAggregateMode; reflexivity. }
  split; [exact E |]. split.
  - intro Hn. rewrite E, (CommitFacts.numberOrZero_number _ Hn).
    destruct next, isAggregateMode; reflexivity.
  - intro Hn. rewrite E, Hn. destruct isAggregateMode; reflexivity.
Qed.

(** A state with a negative limit and a group-by, committed in either mode
    to the modelled owner and read back; and a [NaN] limit read back as 0. *)
Lemma table_commit_reads_back_witness :
  let next :=
    mkState [Samples.col "host" None] [] ["service"] [] (Num (-5)) [] in
  let nan := mkState [] [] [] [] NaN [] in
  builderState
    (OptionsState.mergeOptions Samples.emptyOptions (nextOptions true next))
  = next
  /\ builderState
       (OptionsState.mergeOptions Samples.emptyOptions (nextOptions false next))
     = withoutAggregates next
  /\ limit
       (builderState
          (OptionsState.mergeOptions Samples.emptyOptions
             (nextOptions true nan)))
     = Num 0.
Proof.
  cbv zeta. split; [| split].
  - apply (table_commit_reads_back true
             (mkState [Samples.col "host" None] [] ["service"] []
                (Num (-5)) [])).
    + apply CommitFacts.mergeOptions_carries.
    + discriminate.
  - apply (table_commit_reads_back false
             (mkState [Samples.col "host" None] [] ["service"] []
                (Num (-5)) [])).
    + apply CommitFacts.mergeOptions_carries.
    + discriminate.
  - apply (table_commit_reads_back true (mkState [] [] [] [] NaN [])).
    + apply CommitFacts.mergeOptions_carries.
    + reflexivity.
Defined.

(** X3.  The editors the view renders and the fields the mapping function
    commits as written are the same: a field has a rendered editor in the
    current mode exactly when every editable state commits it unchanged.
    The two fields the mapping overrides in List mode are the two whose
    editors are not rendered there. *)
Theorem rendered_setters_are_committed (isAggregateMode : bool) (k : Key) :
  In k (renderedSetters isAggregateMode) <->
  forall next : TableQueryBuilderState,
    payloadField k (nextOptions isAggregateMode next) = Some (getField k next).
Proof.
  split.
  - intros Hin next. destruct isAggregateMode, k; cbn in *;
      try reflexivity; intuition discriminate.
  - intro H. destruct isAggregateMode, k; cbn; auto 10.
    + specialize (H (mkState [] [mkAggregateColumn "count" "*" None] [] [] (Num 0) [])).
      cbn in H. discriminate.
    + specialize (H (mkState [] [] ["service"] [] (Num 0) [])).
      cbn in H. discriminate.
Qed.

(** X9.  Aggregate mode survives a remount only with an aggregate: the view
    mounted on a model that holds what it committed starts in Aggregate mode
    exactly when the commit was made in Aggregate mode with a non-empty
    [aggregates]; the committed [mode] plays no part. *)
Theorem remount_mode_after_commit
  (isAggregateMode : bool) (next : TableQueryBuilderState)
  (o' : QueryBuilderOptions) :
  Commit.carries o' (nextOptions isAggregateMode next) ->
  (initialAggregateMode o' = true <->
   isAggregateMode = true /\ aggregates next <> []).
Proof.
  unfold Commit.carries, Commit.holds, nextOptions.
  cbn [Partial.mode Partial.columns Partial.aggregates Partial.groupBy
       Partial.filters Partial.orderBy Partial.limit].
  intros [_ [_ [Ha _]]].
  unfold initialAggregateMode. rewrite Ha. cbn [option_map].
  destruct isAggregateMode.
  - destruct (aggregates next) as [| a l].
    + cbn. split; [discriminate | intros [_ H]; congruence].
    + rewrite TableFacts.of_nat_length_pos.
      split; [intros _; split; [reflexivity | discriminate] | reflexivity].
  - cbn. split; [discriminate | intros [H _]; discriminate].
Qed.

(** A commit made in Aggregate mode with a group-by and no aggregate: the
    view remounts in List mode. *)
Lemma remount_mode_after_commit_witness :
  initialAggregateMode
    (OptionsState.mergeOptions Samples.emptyOptions
       (nextOptions true (mkState [] [] ["service"] [] (Num 0) [])))
  = false
  /\ initialAggregateMode
       (OptionsState.mergeOptions Samples.emptyOptions
          (nextOptions true
             (mkState [] [mkAggregateColumn "count" "*" None] [] [] (Num 0) [])))
     = true.
Proof.
  split.
  - reflexivity.
  - apply (remount_mode_after_commit true
             (mkState [] [mkAggregateColumn "count" "*" None] [] [] (Num 0) [])).
    + apply CommitFacts.mergeOptions_carries.
    + split; [reflexivity | discriminate].
Defined.

End TableViewFacts.

(** ** The Logs view: read back, stability, disabled editors, the warning *)

Module LogsViewFacts.

Import Logs HintFacts.

Lemma slot_has_box (h : ColumnHint) (slot : option SelectedColumn) :
  h = Time \/ h = LogLevel \/ h = LogMessage ->
  slotHolds h slot -> filter hasNoBox (pushIfDefined slot) = [].
Proof.
  intros Hh Hs. destruct slot as [c |]; [| reflexivity].
  cbn in *. assert (E : hasNoBox c = false).
  { destruct (hasNoBox c) eqn:E; [| reflexivity].
    apply LogsFacts.hasNoBox_hint in E. rewrite Hs in E.
    destruct Hh as [-> | [-> | ->]]; tauto. }
  rewrite E. reflexivity.
Qed.

Lemma slot_same_hint (h : ColumnHint) (slot : option SelectedColumn) :
  slotHolds h slot ->
  filter (hintIs h) (pushIfDefined slot) = pushIfDefined slot.
Proof.
  intro Hs. destruct slot as [c |]; [| reflexivity].
  cbn in *. apply hintIs_true in Hs. rewrite Hs. reflexivity.
Qed.

Lemma slot_other_hint (h h' : ColumnHint) (slot : option SelectedColumn) :
  h <> h' -> slotHolds h' slot ->
  filter (hintIs h) (pushIfDefined slot) = [].
Proof.
  intros Hne Hs. destruct slot as [c |]; [| reflexivity].
  cbn in *. assert (E : hintIs h c = false)
    by (apply hintIs_false; congruence).
  rewrite E. reflexivity.
Qed.

Lemma unboxed_has_no_carrier (h : ColumnHint) (sel : list SelectedColumn) :
  h = Time \/ h = LogLevel \/ h = LogMessage ->
  forallb hasNoBox sel = true -> filter (hintIs h) sel = [].
Proof.
  intros Hh Hall. apply LogsHooksFacts.filter_none. intros c Hc.
  rewrite forallb_forall in Hall. specialize (Hall c Hc).
  apply LogsFacts.hasNoBox_hint in Hall. apply hintIs_false.
  destruct Hh as [-> | [-> | ->]]; tauto.
Qed.

Lemma find_of_slot (slot : option SelectedColumn) :
  match pushIfDefined slot with
  | x :: _ => Some x
  | [] => None
  end = slot.
Proof. destruct slot; reflexivity. Qed.

(** Decomposing a committed column sequence gives back its four parts. *)
Lemma read_back_columns
  (sel : list SelectedColumn) (t l m : option SelectedColumn) :
  forallb hasNoBox sel = true ->
  slotHolds Time t -> slotHolds LogLevel l -> slotHolds LogMessage m ->
  filter hasNoBox (sel ++ pushIfDefined t ++ pushIfDefined l ++ pushIfDefined m)
  = sel
  /\ find (hintIs Time)
       (sel ++ pushIfDefined t ++ pushIfDefined l ++ pushIfDefined m) = t
  /\ find (hintIs LogLevel)
       (sel ++ pushIfDefined t ++ pushIfDefined l ++ pushIfDefined m) = l
  /\ find (hintIs LogMessage)
       (sel ++ pushIfDefined t ++ pushIfDefined l ++ pushIfDefined m) = m.
Proof.
  intros Hsel Ht Hl Hm.
  split; [| split; [| split]].
  - rewrite !filter_app.
    rewrite (forallb_filter_id hasNoBox sel Hsel).
    rewrite (slot_has_box Time t), (slot_has_box LogLevel l),
      (slot_has_box LogMessage m) by auto.
    rewrite !app_nil_r. reflexivity.
  - rewrite LogsHooksFacts.find_head_filter, !filter_app.
    rewrite (unboxed_has_no_carrier Time sel) by auto.
    rewrite (slot_same_hint Time t Ht).
    rewrite (slot_other_hint Time LogLevel l),
      (slot_other_hint Time LogMessage m) by (auto; discriminate).
    rewrite !app_nil_r. cbn [app]. apply find_of_slot.
  - rewrite LogsHooksFacts.find_head_filter, !filter_app.
    rewrite (unboxed_has_no_carrier LogLevel sel) by auto.
    rewrite (slot_same_hint LogLevel l Hl).
    rewrite (slot_other_hint LogLevel Time t),
      (slot_other_hint LogLevel LogMessage m) by (auto; discriminate).
    rewrite !app_nil_r. cbn [app]. apply find_of_slot.
  - rewrite LogsHooksFacts.find_head_filter, !filter_app.
    rewrite (unboxed_has_no_carrier LogMessage sel) by auto.
    rewrite (slot_same_hint LogMessage m Hm).
    rewrite (slot_other_hint LogMessage Time t),
      (slot_other_hint LogMessage LogLevel l) by (auto; discriminate).
    cbn [app]. apply find_of_slot.
Qed.

(** The state read off any model has selected columns without a box and
    boxes that hold a carrier of their own hint. *)
Lemma builderState_holds (o : QueryBuilderOptions) :
  forallb hasNoBox (selectedColumns (builderState o)) = true
  /\ slotHolds Time (timeColumn (builderState o))
  /\ slotHolds LogLevel (logLevelColumn (builderState o))
  /\ slotHolds LogMessage (messageColumn (builderState o)).
Proof.
  split; [apply LogsFacts.builderState_boxes |].
  unfold builderState, getColumnByHint. cbn.
  repeat split;
    match goal with
    | |- slotHolds ?h (find ?p ?l) =>
        destruct (find p l) eqn:E; cbn; [| exact I];
        apply find_some in E; apply hintIs_true; tauto
    end.
Qed.

(** Reading the state off a model that holds a payload. *)
Lemma builderState_of_carried (next : LogsQueryBuilderState)
  (o' : QueryBuilderOptions) :
  Commit.carries o' (nextOptions next) ->
  QB.columns o' = Some (nextColumns next)
  /\ filters (builderState o') = filters next
  /\ orderBy (builderState o') = orderBy next
  /\ limit (builderState o') = numberOrZero (Some (limit next)).
Proof.
  unfold Commit.carries, Commit.holds, nextOptions.
  cbn [Partial.mode Partial.columns Partial.aggregates Partial.groupBy
       Partial.filters Partial.orderBy Partial.limit].
  intros [_ [Hc [_ [_ [Hf [Ho Hl]]]]]].
  split; [exact Hc |]. unfold builderState. cbn [filters orderBy limit].
  rewrite Hf, Ho, Hl. cbn [orElse]. auto.
Qed.

Lemma builderState_columns_of (o' : QueryBuilderOptions)
  (cs : list SelectedColumn) :
  QB.columns o' = Some cs ->
  selectedColumns (builderState o') = filter hasNoBox cs
  /\ timeColumn (builderState o') = find (hintIs Time) cs
  /\ logLevelColumn (builderState o') = find (hintIs LogLevel) cs
  /\ messageColumn (builderState o') = find (hintIs LogMessage) cs.
Proof.
  intro Hc. unfold builderState, getColumnByHint. cbn. rewrite Hc. cbn. auto.
Qed.

(** X4.  Committing and reading back in the Logs view.  When the selected
    columns carry none of the hints Time, LogLevel, LogMessage and every
    box is empty or holds a column with the hint of that box, a model that
    holds what the mapping function committed is read as the committed
    state: the same selected columns, the same three boxes, the same
    filters and ordering, and the limit read through [|| 0], which is the
    committed limit unless that is [NaN], read back as [0]. *)
Theorem logs_commit_reads_back
  (next : LogsQueryBuilderState) (o' : QueryBuilderOptions) :
  Commit.carries o' (nextOptions next) ->
  forallb hasNoBox (selectedColumns next) = true ->
  slotHolds Time (timeColumn next) ->
  slotHolds LogLevel (logLevelColumn next) ->
  slotHolds LogMessage (messageColumn next) ->
  selectedColumns (builderState o') = selectedColumns next
  /\ timeColumn (builderState o') = timeColumn next
  /\ logLevelColumn (builderState o') = logLevelColumn next
  /\ messageColumn (builderState o') = messageColumn next
  /\ filters (builderState o') = filters next
  /\ orderBy (builderState o') = orderBy next
  /\ limit (builderState o') = numberOrZero (Some (limit next))
  /\ (limit next <> NaN -> limit (builderState o') = limit next).
Proof.
  intros Hcar Hsel Ht Hl Hm.
  destruct (builderState_of_carried next o' Hcar) as [Hc [Hf [Ho Hli]]].
  destruct (builderState_columns_of o' _ Hc) as [Es [Et [El Em]]].
  destruct (read_back_columns _ _ _ _ Hsel Ht Hl Hm) as [Rs [Rt [Rl Rm]]].
  unfold nextColumns in Es, Et, El, Em.
  rewrite Es, Et, El, Em, Rs, Rt, Rl, Rm.
  repeat (split; [solve [auto] |]).
  intro Hn. rewrite Hli. apply CommitFacts.numberOrZero_number. exact Hn.
Qed.

(** A time column picked and a limit typed, committed to the modelled owner
    and read back. *)
Lemma logs_commit_reads_back_witness :
  let next :=
    mkState false "" [Samples.col "host" None]
      (Some (Samples.col "ts" (Some Time))) None None [] (Num (-5)) [] in
  let o' := OptionsState.mergeOptions Samples.emptyOptions (nextOptions next) in
  selectedColumns (builderState o') = [Samples.col "host" None]
  /\ timeColumn (builderState o') = Some (Samples.col "ts" (Some Time))
  /\ limit (builderState o') = Num (-5).
Proof.
  cbv zeta.
  destruct (logs_commit_reads_back
              (mkState false "" [Samples.col "host" None]
                 (Some (Samples.col "ts" (Some Time))) None None [] (Num (-5)) [])
              (OptionsState.mergeOptions Samples.emptyOptions
                 (nextOptions
                    (mkState false "" [Samples.col "host" None]
                       (Some (Samples.col "ts" (Some Time))) None None []
                       (Num (-5)) []))))
    as [Hs [Ht [_ [_ [_ [_ [_ Hl]]]]]]].
  - apply CommitFacts.mergeOptions_carries.
  - reflexivity.
  - reflexivity.
  - exact I.
  - exact I.
  - split; [exact Hs |]. split; [exact Ht |]. apply Hl. discriminate.
Defined.

(** X5.  A column without a hint written to the time box is committed, but
    the box does not keep it: on the next render the time box is empty and
    the column stands last among the selected columns.  What fills a box is
    the hint of a column of the model, not the box it was written through. *)
Theorem hintless_box_column_moves_to_selected
  (next : LogsQueryBuilderState) (c : SelectedColumn)
  (o' : QueryBuilderOptions) :
  Commit.carries o' (nextOptions next) ->
  timeColumn next = Some c -> hint c = None ->
  forallb hasNoBox (selectedColumns next) = true ->
  slotHolds LogLevel (logLevelColumn next) ->
  slotHolds LogMessage (messageColumn next) ->
  In c (orElse (QB.columns o') [])
  /\ timeColumn (builderState o') = None
  /\ selectedColumns (builderState o') = selectedColumns next ++ [c]
  /\ logLevelColumn (builderState o') = logLevelColumn next
  /\ messageColumn (builderState o') = messageColumn next.
Proof.
  intros Hcar Htc Hh Hsel Hl Hm.
  destruct (builderState_of_carried next o' Hcar) as [Hc _].
  destruct (builderState_columns_of o' _ Hc) as [Es [Et [El Em]]].
  assert (Hsel' : forallb hasNoBox (selectedColumns next ++ [c]) = true).
  { rewrite forallb_app, Hsel. cbn. rewrite andb_true_r.
    apply LogsFacts.hasNoBox_hint. rewrite Hh. repeat split; discriminate. }
  destruct (read_back_columns (selectedColumns next ++ [c]) None
              (logLevelColumn next) (messageColumn next) Hsel' I Hl Hm)
    as [Rs [Rt [Rl Rm]]].
  assert (Ecs : nextColumns next =
                (selectedColumns next ++ [c]) ++ pushIfDefined None
                ++ pushIfDefined (logLevelColumn next)
                ++ pushIfDefined (messageColumn next)).
  { unfold nextColumns. rewrite Htc. cbn [pushIfDefined app].
    rewrite <- app_assoc. reflexivity. }
  rewrite Ecs in Es, Et, El, Em.
  rewrite Es, Et, El, Em, Rs, Rt, Rl, Rm.
  split; [| auto].
  rewrite Hc. cbn [orElse]. unfold nextColumns. rewrite Htc.
  apply in_or_app. right. left. reflexivity.
Qed.

(** A catalog column picked for the time box without the Time hint. *)
Lemma hintless_box_column_moves_to_selected_witness :
  let next :=
    mkState false "" [Samples.col "host" None]
      (Some (Samples.col "ts" None)) None None [] (Num 100) [] in
  let o' := OptionsState.mergeOptions Samples.emptyOptions (nextOptions next) in
  timeColumn (builderState o') = None
  /\ selectedColumns (builderState o')
     = [Samples.col "host" None; Samples.col "ts" None].
Proof.
  cbv zeta.
  destruct (hintless_box_column_moves_to_selected
              (mkState false "" [Samples.col "host" None]
                 (Some (Samples.col "ts" None)) None None [] (Num 100) [])
              (Samples.col "ts" None)
              (OptionsState.mergeOptions Samples.emptyOptions
                 (nextOptions
                    (mkState false "" [Samples.col "host" None]
                       (Some (Samples.col "ts" None)) None None [] (Num 100) []))))
    as [_ [Ht [Hs _]]].
  - apply CommitFacts.mergeOptions_carries.
  - reflexivity.
  - reflexivity.
  - reflexivity.
  - exact I.
  - exact I.
  - split; [exact Ht | exact Hs].
Defined.

(** X6.  Decomposing and recommitting is stable on every model, also one
    with several carriers of a hint: once the owner holds what the view
    committed for the state it read, reading and committing again commits
    the same payload. *)
Theorem logs_recommit_is_stable (o o' : QueryBuilderOptions) :
  Commit.carries o' (nextOptions (builderState o)) ->
  nextOptions (builderState o') = nextOptions (builderState o).
Proof.
  intro Hcar.
  destruct (builderState_of_carried _ o' Hcar) as [Hc [Hf [Ho Hli]]].
  destruct (builderState_columns_of o' _ Hc) as [Es [Et [El Em]]].
  destruct (builderState_holds o) as [Hsel [Ht [Hl Hm]]].
  destruct (read_back_columns _ _ _ _ Hsel Ht Hl Hm) as [Rs [Rt [Rl Rm]]].
  unfold nextColumns in Es, Et, El, Em.
  rewrite Rs in Es. rewrite Rt in Et. rewrite Rl in El. rewrite Rm in Em.
  unfold nextOptions, nextColumns.
  rewrite Es, Et, El, Em, Hf, Ho, Hli.
  cbn [builderState limit]. rewrite CommitFacts.numberOrZero_idem.
  reflexivity.
Qed.

(** The model with two Time columns: the first recommit drops the second
    one, the next recommit changes nothing. *)
Lemma logs_recommit_is_stable_witness :
  nextOptions (builderState (recommit Samples.twoTimeOptions))
  = nextOptions (builderState Samples.twoTimeOptions)
  /\ Partial.columns (nextOptions (builderState Samples.twoTimeOptions))
     = Some [Samples.col "ts" (Some Time)].
Proof.
  split; [| reflexivity].
  apply (logs_recommit_is_stable Samples.twoTimeOptions
           (recommit Samples.twoTimeOptions)).
  apply CommitFacts.mergeOptions_carries.
Defined.

(** X7.  With the convention flag enabled the columns editor and the three
    column boxes are disabled.  A commit that leaves the fields of the
    disabled editors as read from the model commits the columns of a plain
    recommit, and these carry pairwise distinct hints whenever the columns
    of the model did. *)
Theorem otel_disabled_editors_keep_columns
  (o : QueryBuilderOptions) (next : LogsQueryBuilderState) :
  otelEnabled (builderState o) = true ->
  (forall k : Key,
      In k (disabledSetters (builderState o)) ->
      getField k next = getField k (builderState o)) ->
  nextColumns next = nextColumns (builderState o)
  /\ (hintsUnique (orElse (QB.columns o) []) ->
      hintsUnique (nextColumns next)).
Proof.
  intros Hotel Hsame. unfold disabledSetters in Hsame. rewrite Hotel in Hsame.
  pose proof (Hsame KselectedColumns) as Hs.
  pose proof (Hsame KtimeColumn) as Ht.
  pose proof (Hsame KlogLevelColumn) as Hl.
  pose proof (Hsame KmessageColumn) as Hm.
  cbn [getField In] in Hs, Ht, Hl, Hm.
  assert (E : nextColumns next = nextColumns (builderState o)).
  { unfold nextColumns. rewrite Hs, Ht, Hl, Hm by auto 6. reflexivity. }
  split; [exact E |].
  intro Huniq. rewrite E.
  destruct (LogsFacts.builderState_boxes o) as [Bsel [Bt [Bl Bm]]].
  apply LogsFacts.nextColumns_hintsUnique; try assumption.
  rewrite LogsFacts.selectedColumns_builderState.
  apply LogsFacts.hintsOf_filter_NoDup. exact Huniq.
Qed.

(** With the flag enabled, a limit change commits the columns as a plain
    recommit would. *)
Lemma otel_disabled_editors_keep_columns_witness :
  nextColumns (setField Klimit (Num 10) (builderState Samples.otelOptions))
  = [Samples.col "host" None; Samples.col "Timestamp" (Some Time);
     Samples.col "SeverityText" (Some LogLevel);
     Samples.col "Body" (Some LogMessage)]
  /\ hintsUnique
       (nextColumns (setField Klimit (Num 10) (builderState Samples.otelOptions))).
Proof.
  destruct (otel_disabled_editors_keep_columns Samples.otelOptions
              (setField Klimit (Num 10) (builderState Samples.otelOptions)))
    as [E H].
  - reflexivity.
  - intros k Hin. cbn in Hin.
    destruct Hin as [<- | [<- | [<- | [<- | []]]]]; reflexivity.
  - split; [exact E |]. apply H.
    cbn. repeat constructor; simpl; intuition discriminate.
Defined.

(** *** The configuration warning *)

Lemma warning_after (events : list WarningEvent) :
  forall show : bool,
    fold_left warningStep events show = show && negb (existsb isClose events).
Proof.
  induction events as [| e events IH]; intro show; cbn [fold_left existsb].
  - cbn. rewrite andb_true_r. reflexivity.
  - rewrite IH. destruct e; cbn.
    + symmetry. apply andb_false_r.
    + reflexivity.
Qed.

(** X8.  The configuration warning is decided once, at mount: it is on
    show after a session exactly when the datasource had no default log
    column at mount, the model the view mounted with had a [columns] array
    that was empty (a model without [columns] never shows it), and the user
    has not closed it.  No later render opens it, whatever the datasource
    and the model have become. *)
Theorem config_warning_shown_iff
  (defaultLogsColumnsSize : nat) (o : QueryBuilderOptions)
  (events : list WarningEvent) :
  showConfigWarning defaultLogsColumnsSize o events = true <->
  defaultLogsColumnsSize = 0%nat
  /\ QB.columns o = Some []
  /\ existsb isClose events = false.
Proof.
  unfold showConfigWarning. rewrite warning_after.
  unfold initialShowConfigWarning.
  rewrite !andb_true_iff, negb_true_iff, Nat.eqb_eq.
  destruct (QB.columns o) as [[| c cs] |]; cbn.
  - tauto.
  - split; [intros [[_ H] _]; discriminate | intros [_ [H _]]; discriminate].
  - split; [intros [[_ H] _]; discriminate | intros [_ [H _]]; discriminate].
Qed.

End LogsViewFacts.

(** ** Batches of editor changes and what the views commit for them *)

Module BatchFacts.

Local Abbreviation tableMerge := (@Reconciler.mergeQueue _ Table.shape).
Local Abbreviation tableWritten := (@Reconciler.written _ Table.shape).
Local Abbreviation logsMerge := (@Reconciler.mergeQueue _ Logs.shape).
Local Abbreviation logsWritten := (@Reconciler.written _ Logs.shape).




End BatchFacts.
